(** * mxgraph: the bouncing-balls demo and the in-place cell editor

    A shallow embedding of
    - [javascript/examples/bouncingballs/bouncingballs.js]
      ([Array.prototype.filterInPlace], the listeners and the animation
      callback of [bb_main]), and
    - [mxCellEditor.js] (the in-place label editor),
    and the properties of the specification that concern them.

    The file has two parts.  The first holds the definitions: the two
    programs, and the vocabulary in which their properties are stated.
    The second holds the lemmas and theorems.

    Conventions of the embedding.
    - A JavaScript number is an exact rational ([Q]); the rounding, the
      infinities and the [NaN] of IEEE doubles are outside the model.
    - A JavaScript array is a dense [list]; an object used as a map is a
      [gmap]; an object is referred to by an identifier ([nat]), and
      objects that are mutated through several references live in a
      store.
    - [null] and [undefined] are [None].
    - A method that can raise a [TypeError] (a property access on
      [null]) is a computation in the monad [M], which keeps the state
      reached at the point of the throw. *)

From Stdlib Require Import QArith Qabs Qminmax Qround Lqa Ascii String.
From stdpp Require Import gmap strings list fin_maps.

Set Default Proof Using "Type".

(* ===================================================================== *)
(** * Part I: definitions *)
(* ===================================================================== *)

(** ** Numbers *)

Module JsNum.

(** [a >= b] and [a <= b], [a > b] on numbers. *)
Definition geb (a b : Q) : bool := Qle_bool b a.
Definition leb (a b : Q) : bool := Qle_bool a b.
Definition gtb (a b : Q) : bool := negb (Qle_bool a b).

(** [Math.abs], [Math.max], [Math.min]. *)
Definition Math_abs (a : Q) : Q := Qabs a.
Definition Math_max (a b : Q) : Q := Qmax a b.
Definition Math_min (a b : Q) : Q := Qmin a b.

(** A number is falsy exactly when it is zero. *)
Definition truthy (a : Q) : bool := negb (Qeq_bool a 0).

(** [parseInt] of a number: the integer part, rounding towards zero. *)
Definition parseInt (a : Q) : Q :=
  inject_Z (Z.quot (Qnum a) (Zpos (Qden a))).

End JsNum.

(* --------------------------------------------------------------------- *)
(** ** bouncingballs.js *)
(* --------------------------------------------------------------------- *)

Module BouncingBalls.
Import JsNum.

(** *** [Array.prototype.filterInPlace] *)

Section FilterInPlace.
Context {A : Type}.
Variable cond : A → bool.

(** The [for] loop, from index [i] with [removed] elements dropped so
    far.  [this[i - removed] = this[i]] is an in-range store because
    [i - removed <= i < this.length].  The loop leaves through its
    test [i < this.length]; [fuel] bounds the number of iterations,
    and [None] reports that it ran out. *)
Fixpoint filterInPlace_loop (fuel : nat) (this : list A) (i removed : nat)
  : option (list A * nat) :=
  match this !! i with
  | None => Some (this, removed)
  | Some e =>
      match fuel with
      | O => None
      | S fuel' =>
          if negb (cond e) then
            filterInPlace_loop fuel' this (S i) (S removed)
          else if 0 <? removed then
            filterInPlace_loop fuel' (<[i - removed := e]> this) (S i) removed
          else
            filterInPlace_loop fuel' this (S i) removed
      end
  end.

(** [this.length -= removed] truncates the array. *)
Definition filterInPlace (this : list A) : option (list A) :=
  '(this', removed) ← filterInPlace_loop (length this) this 0 0;
  Some (take (length this' - removed) this').

(** The non-mutating [Array.prototype.filter]: the elements that
    satisfy [cond], in order. *)
Fixpoint Array_filter (this : list A) : list A :=
  match this with
  | [] => []
  | e :: rest => if cond e then e :: Array_filter rest else Array_filter rest
  end.

(** Loop invariant: the first [i - removed] cells hold the kept
    elements of the first [i] original ones, and the cells from [i]
    on are untouched. *)
Definition loop_inv (orig this : list A) (i removed : nat) : Prop :=
  length this = length orig ∧
  removed ≤ i ∧ i ≤ length orig ∧
  take (i - removed) this = Array_filter (take i orig) ∧
  drop i this = drop i orig.

End FilterInPlace.

(** *** The animation callback of [bb_main] *)

Record mxGeometry := { x : Q; y : Q; width : Q; height : Q }.

(** A ball: an [mxCell] with the two velocity fields the demo adds. *)
Record mxCell := { geometry : mxGeometry; vx : Q; vy : Q }.

Definition canvas_size_w : Q := 640.
Definition canvas_size_h : Q := 480.

Definition set_vx (v : Q) (c : mxCell) : mxCell :=
  {| geometry := geometry c; vx := v; vy := vy c |}.
Definition set_vy (v : Q) (c : mxCell) : mxCell :=
  {| geometry := geometry c; vx := vx c; vy := v |}.

(** The four wall tests, in source order.  They read [geom.x] and
    [geom.y] as they are before the step. *)
Definition bounce (c : mxCell) : mxCell :=
  let geom := geometry c in
  let c := if geb (x geom + width geom) canvas_size_w
           then set_vx (- Math_abs (vx c)) c else c in
  let c := if leb (x geom) 0 then set_vx (Math_abs (vx c)) c else c in
  let c := if geb (y geom + height geom) canvas_size_h
           then set_vy (- Math_abs (vy c)) c else c in
  let c := if leb (y geom) 0 then set_vy (Math_abs (vy c)) c else c in
  c.

(** [geom.x += c.vx; geom.y += c.vy]. *)
Definition step (c : mxCell) : mxCell :=
  let geom := geometry c in
  {| geometry := {| x := x geom + vx c; y := y geom + vy c;
                    width := width geom; height := height geom |};
     vx := vx c; vy := vy c |}.

(** The body of [movingBalls.forEach(c => ...)] for one visit. *)
Definition animate (c : mxCell) : mxCell := step (bounce c).

(** One tick.  [movingBalls] holds references into the store of cell
    objects, so a cell listed twice is visited, and moved, twice. *)
Definition tick (cells : gmap nat mxCell) (movingBalls : list nat)
  : gmap nat mxCell :=
  foldl (λ cells c, alter animate c cells) cells movingBalls.

(** No wall is touched: the ball lies strictly inside the canvas. *)
Definition no_contact (c : mxCell) : bool :=
  let geom := geometry c in
  negb (geb (x geom + width geom) canvas_size_w) && negb (leb (x geom) 0) &&
  negb (geb (y geom + height geom) canvas_size_h) && negb (leb (y geom) 0).

(** What one visit does to a ball. *)
Record animated (c c' : mxCell) : Prop := {
  speed_x : Math_abs (vx c') = Math_abs (vx c);
  speed_y : Math_abs (vy c') = Math_abs (vy c);
  sign_x : vx c' = vx c ∨ vx c' = (- vx c)%Q;
  sign_y : vy c' = vy c ∨ vy c' = (- vy c)%Q;
  keep_v : no_contact c = true → vx c' = vx c ∧ vy c' = vy c;
  move_x : x (geometry c') = (x (geometry c) + vx c')%Q;
  move_y : y (geometry c') = (y (geometry c) + vy c')%Q;
  size_w : width (geometry c') = width (geometry c);
  size_h : height (geometry c') = height (geometry c)
}.

(** *** The listeners that maintain [movingBalls] *)

(** [CELLS_ADDED]: [movingBalls.push(...cells)], and every added cell gets
    the velocity (1, 1). *)
Definition on_cells_added (added : list nat)
    (cells : gmap nat mxCell) (movingBalls : list nat)
  : gmap nat mxCell * list nat :=
  (foldl (λ cells c, alter (λ b, set_vy 1 (set_vx 1 b)) c cells) cells added,
   movingBalls ++ added).

(** Selection [CHANGE]: the cells of [evt.properties.removed], when there
    is such an array, are filtered out in place; the cells of
    [evt.properties.added] are pushed. *)
Definition on_selection_change (removed added : option (list nat))
    (movingBalls : list nat) : option (list nat) :=
  movingBalls ← match removed with
                | Some r =>
                    filterInPlace (λ c, negb (bool_decide (c ∈ r))) movingBalls
                | None => Some movingBalls
                end;
  Some (match added with
        | Some a => movingBalls ++ a
        | None => movingBalls
        end).

(** *** Example data *)

(** Two balls, the second one touching the right wall. *)
Definition ball_a : mxCell :=
  {| geometry := {| x := 100; y := 50; width := 40; height := 40 |};
     vx := 1; vy := 1 |}.
Definition ball_b : mxCell :=
  {| geometry := {| x := 600; y := 50; width := 40; height := 40 |};
     vx := 1; vy := -1 |}.
Definition two_balls : gmap nat mxCell := <[1%nat := ball_a]> (<[2%nat := ball_b]> ∅).

(** *** The animation over time *)

(** [window.setInterval] runs the callback again and again: the store
    after [n] ticks, with [movingBalls] as it is. *)
Definition ticks (n : nat) (cells : gmap nat mxCell) (movingBalls : list nat)
  : gmap nat mxCell :=
  Nat.iter n (λ cells, tick cells movingBalls) cells.

(** The ball is inside the canvas, or outside by at most one step. *)
Definition near_canvas (c : mxCell) : Prop :=
  let geom := geometry c in
  (- Math_abs (vx c) <= x geom)%Q ∧
  (x geom + width geom <= canvas_size_w + Math_abs (vx c))%Q ∧
  (- Math_abs (vy c) <= y geom)%Q ∧
  (y geom + height geom <= canvas_size_h + Math_abs (vy c))%Q.

(** The velocity a wall test leaves: the test of the near wall (left,
    top) comes last and wins. *)
Definition turned (pos extent limit v : Q) : Q :=
  if leb pos 0 then Math_abs v
  else if geb (pos + extent) limit then (- Math_abs v)%Q
  else v.

(** *** The click listener *)

(** The browser's mouse event, and the toolkit's event object around
    it. *)
Record MouseEvent := { button : Z; offsetX : Q; offsetY : Q }.
Record mxEventObject := { consumed : bool; event : MouseEvent }.

Definition radius : Q := 20.

Definition consume (evt : mxEventObject) : mxEventObject :=
  {| consumed := true; event := event evt |}.

(** [CLICK]: an event that is not consumed and comes from the left
    button is consumed, and a vertex with the returned geometry is
    inserted. *)
Definition on_click (evt : mxEventObject) : mxEventObject * option mxGeometry :=
  if negb (consumed evt) && Z.eqb (button (event evt)) 0 then
    (consume evt,
     Some {| x := offsetX (event evt) - radius;
             y := offsetY (event evt) - radius;
             width := radius * 2; height := radius * 2 |})
  else (evt, None).

(** A ball 700 wide, wider than the canvas, lying over both walls. *)
Definition ball_wide : mxCell :=
  {| geometry := {| x := -10; y := 50; width := 700; height := 40 |};
     vx := -3; vy := 1 |}.

End BouncingBalls.

(* --------------------------------------------------------------------- *)
(** ** mxCellEditor.js *)
(* --------------------------------------------------------------------- *)

Module CellEditor.
Import JsNum.

(** *** The toolkit's data *)

(** Object identities: cells of the diagram, DOM nodes of rendered
    labels, and the events that trigger editing. *)
Definition Cell := nat.
Definition Node := nat.
Definition Trigger := nat.

Record mxPoint := { pt_x : Q; pt_y : Q }.

Record mxRectangle := { x : Q; y : Q; width : Q; height : Q }.

(** The text shape of a rendered label ([state.text]). *)
Record mxText := {
  node : Node;
  boundingBox : option mxRectangle;
  margin : option mxPoint;
  size : Q
}.

(** A cell style.  The toolkit's style parser stores numeric entries as
    numbers and all others as strings; the two kinds are kept apart, so
    [parseInt] is only ever applied to a number. *)
Record Style := {
  numbers : gmap string Q;
  strings : gmap string string
}.

(** [mxCellState] extends [mxRectangle]. *)
Record mxCellState := {
  as_mxRectangle :> mxRectangle;
  cell : Cell;
  absoluteOffset : mxPoint;
  style : Style;
  text : option mxText
}.

(** Modelled from the spec: the constants of [mxConstants], which the
    source names and does not define.  The spec gives the values of the
    label positions ("left", "right", "center", "top", "bottom"); the
    style keys only need to be distinct. *)
Definition STYLE_SPACING : string := "spacing".
Definition STYLE_SPACING_TOP : string := "spacingTop".
Definition STYLE_SPACING_RIGHT : string := "spacingRight".
Definition STYLE_SPACING_BOTTOM : string := "spacingBottom".
Definition STYLE_SPACING_LEFT : string := "spacingLeft".
Definition STYLE_ALIGN : string := "align".
Definition STYLE_LABEL_POSITION : string := "labelPosition".
Definition STYLE_VERTICAL_LABEL_POSITION : string := "verticalLabelPosition".
Definition ALIGN_LEFT : string := "left".
Definition ALIGN_CENTER : string := "center".
Definition ALIGN_RIGHT : string := "right".
Definition ALIGN_TOP : string := "top".
Definition ALIGN_MIDDLE : string := "middle".
Definition ALIGN_BOTTOM : string := "bottom".

(** Modelled from the spec: [mxUtils.getValue(style, key, default)], the
    entry under [key], or the default when there is none. *)
Definition getValue (s : Style) (key : string) (defaultValue : string) : string :=
  default defaultValue (strings s !! key).

(** [parseInt(style[key] || d)]: a missing entry and the number zero
    are both falsy. *)
Definition parseInt_or (s : Style) (key : string) (d : Q) : Q :=
  match numbers s !! key with
  | Some v => if truthy v then parseInt v else parseInt d
  | None => parseInt d
  end.

(** What the editor asks of the graph, its view and its model.  The
    host changes these between calls of the editor. *)
Record mxGraph := {
  getState : Cell → option mxCellState;
  scale : Q;
  isEdge : Cell → bool;
  isVertex : Cell → bool;
  getEditingValue : Cell → option Trigger → option string;
  isLabelClipped : Cell → bool;
  isWrapping : Cell → bool;
  isEnterStopsCellEditing : bool;
  isInvokesStopCellEditing : bool
}.

(** *** The editor's state *)

(** The textarea, as far as the editor reads it back: its text, the
    two style properties tested by the code, and whether it is attached
    ([parentNode != null]).  Font, colour and pixel geometry are
    written and never read, and are left out.  A style property holds
    the string last assigned to it. *)
Record HTMLTextAreaElement := {
  value : string;
  style_textAlign : string;
  style_display : string;
  parentNode : bool
}.

(** [this.textNode]: the prototype's initial [''], [null], or the label
    node hidden for the session. *)
Inductive TextNodeRef :=
| TN_empty_string
| TN_null
| TN_node (n : Node).

(** The measuring [div] made by [createTextDiv]; it copies the
    textarea's text alignment. *)
Record HTMLDivElement := { div_textAlign : string }.

Record mxCellEditor := mkEditor {
  textarea : option HTMLTextAreaElement;
  editingCell : option Cell;
  trigger : option Trigger;
  modified : bool;
  autoSize : bool;
  selectText : bool;
  emptyLabelText : string;
  textNode : TextNodeRef;
  textDiv : option HTMLDivElement;
  bounds : option mxRectangle;
  clearOnChange : option bool;
  changeHandler : bool
}.

(** A call of the host's [graph.labelChanged(cell, value, trigger)]. *)
Definition LabelChange : Type := Cell * string * option Trigger.

(** The editor together with what it does to its surroundings: the
    calls of [labelChanged], in order; the label nodes whose
    [style.visibility] is ['hidden']; and the number of change
    listeners it holds on the model. *)
Record World := {
  this : mxCellEditor;
  labelChanged : list LabelChange;
  hidden : gset Node;
  modelListeners : nat
}.

(** [new mxCellEditor(graph)]: the prototype's defaults. *)
Definition new_mxCellEditor : mxCellEditor := {|
  textarea := None;
  editingCell := None;
  trigger := None;
  modified := false;
  autoSize := true;
  selectText := true;
  emptyLabelText := "";
  textNode := TN_empty_string;
  textDiv := None;
  bounds := None;
  clearOnChange := None;
  changeHandler := false
|}.

Definition new_World : World :=
  {| this := new_mxCellEditor; labelChanged := []; hidden := ∅;
     modelListeners := 0 |}.

(** Field updates.  They take the record apart once, rather than
    project it field by field. *)
Definition set_textarea (v : option HTMLTextAreaElement) (e : mxCellEditor) :=
  let '(mkEditor _ c tr m a s el tn td b cc ch) := e in
  mkEditor v c tr m a s el tn td b cc ch.
Definition set_editingCell (v : option Cell) (e : mxCellEditor) :=
  let '(mkEditor ta _ tr m a s el tn td b cc ch) := e in
  mkEditor ta v tr m a s el tn td b cc ch.
Definition set_trigger (v : option Trigger) (e : mxCellEditor) :=
  let '(mkEditor ta c _ m a s el tn td b cc ch) := e in
  mkEditor ta c v m a s el tn td b cc ch.
Definition set_modified (v : bool) (e : mxCellEditor) :=
  let '(mkEditor ta c tr _ a s el tn td b cc ch) := e in
  mkEditor ta c tr v a s el tn td b cc ch.
Definition set_textNode (v : TextNodeRef) (e : mxCellEditor) :=
  let '(mkEditor ta c tr m a s el _ td b cc ch) := e in
  mkEditor ta c tr m a s el v td b cc ch.
Definition set_textDiv (v : option HTMLDivElement) (e : mxCellEditor) :=
  let '(mkEditor ta c tr m a s el tn _ b cc ch) := e in
  mkEditor ta c tr m a s el tn v b cc ch.
Definition set_bounds (v : option mxRectangle) (e : mxCellEditor) :=
  let '(mkEditor ta c tr m a s el tn td _ cc ch) := e in
  mkEditor ta c tr m a s el tn td v cc ch.
Definition set_clearOnChange (v : option bool) (e : mxCellEditor) :=
  let '(mkEditor ta c tr m a s el tn td b _ ch) := e in
  mkEditor ta c tr m a s el tn td b v ch.
Definition set_changeHandler (v : bool) (e : mxCellEditor) :=
  let '(mkEditor ta c tr m a s el tn td b cc _) := e in
  mkEditor ta c tr m a s el tn td b cc v.
Definition set_flags (a' s' : bool) (el' : string) (e : mxCellEditor) :=
  let '(mkEditor ta c tr m _ _ _ tn td b cc ch) := e in
  mkEditor ta c tr m a' s' el' tn td b cc ch.

Definition ta_set_value (v : string) (t : HTMLTextAreaElement) :=
  {| value := v; style_textAlign := style_textAlign t;
     style_display := style_display t; parentNode := parentNode t |}.
Definition ta_set_textAlign (v : string) (t : HTMLTextAreaElement) :=
  {| value := value t; style_textAlign := v;
     style_display := style_display t; parentNode := parentNode t |}.
Definition ta_set_display (v : string) (t : HTMLTextAreaElement) :=
  {| value := value t; style_textAlign := style_textAlign t;
     style_display := v; parentNode := parentNode t |}.
Definition ta_set_parentNode (v : bool) (t : HTMLTextAreaElement) :=
  {| value := value t; style_textAlign := style_textAlign t;
     style_display := style_display t; parentNode := v |}.

(** *** Computations that may throw *)

Inductive Result (A : Type) :=
| Ok (a : A) (w : World)
| TypeError (w : World).
Arguments Ok {A} a w.
Arguments TypeError {A} w.

Definition M (A : Type) : Type := World → Result A.

#[export] Instance M_ret : MRet M := λ A a w, Ok a w.
#[export] Instance M_bind : MBind M := λ A B f m w,
  match m w with
  | Ok a w' => f a w'
  | TypeError w' => TypeError w'
  end.

(** The state a computation leaves, thrown or not. *)
Definition world_of {A} (r : Result A) : World :=
  match r with Ok _ w => w | TypeError w => w end.

Definition throw {A} : M A := λ w, TypeError w.
Definition get : M mxCellEditor := λ w, Ok (this w) w.
Definition update (f : mxCellEditor → mxCellEditor) : M unit :=
  λ '{| this := e; labelChanged := l; hidden := h; modelListeners := n |},
    Ok tt {| this := f e; labelChanged := l; hidden := h; modelListeners := n |}.
(** [this.textarea.p]: a [TypeError] when [this.textarea] is [null]. *)
Definition the_textarea : M HTMLTextAreaElement := λ w,
  match textarea (this w) with
  | Some t => Ok t w
  | None => TypeError w
  end.
Definition set_visibility (nd : Node) (visible : bool) : M unit :=
  λ '{| this := e; labelChanged := l; hidden := h; modelListeners := n |},
    Ok tt {| this := e; labelChanged := l;
             hidden := if visible then h ∖ {[nd]} else {[nd]} ∪ h;
             modelListeners := n |}.
Definition graph_labelChanged (c : Cell) (v : string) (t : option Trigger)
  : M unit :=
  λ '{| this := e; labelChanged := l; hidden := h; modelListeners := n |},
    Ok tt {| this := e; labelChanged := l ++ [(c, v, t)]; hidden := h;
             modelListeners := n |}.
(** [model.addListener(mxEvent.CHANGE, h)] and [model.removeListener(h)],
    for the one handler of this editor. *)
Definition model_addListener : M unit :=
  λ '{| this := e; labelChanged := l; hidden := h; modelListeners := n |},
    Ok tt {| this := e; labelChanged := l; hidden := h; modelListeners := S n |}.
Definition model_removeListener : M unit :=
  λ '{| this := e; labelChanged := l; hidden := h; modelListeners := n |},
    Ok tt {| this := e; labelChanged := l; hidden := h; modelListeners := pred n |}.

Definition rect_set_x (v : Q) (r : mxRectangle) : mxRectangle :=
  {| x := v; y := y r; width := width r; height := height r |}.
Definition rect_set_y (v : Q) (r : mxRectangle) : mxRectangle :=
  {| x := x r; y := v; width := width r; height := height r |}.
Definition rect_set_width (v : Q) (r : mxRectangle) : mxRectangle :=
  {| x := x r; y := y r; width := v; height := height r |}.
Definition rect_set_height (v : Q) (r : mxRectangle) : mxRectangle :=
  {| x := x r; y := y r; width := width r; height := v |}.

(** [s.replace(/\r/g, '')]. *)
Fixpoint remove_cr (s : string) : string :=
  match s with
  | EmptyString => EmptyString
  | String c rest =>
      if Ascii.eqb c "013"%char then remove_cr rest else String c (remove_cr rest)
  end.

(** A key event on the textarea: [evt.keyCode], and what
    [mxEvent.isConsumed], [isControlDown] and [isShiftDown] say of it. *)
Record KeyEvent := {
  keyCode : nat;
  isConsumed : bool;
  isControlDown : bool;
  isShiftDown : bool
}.

(** *** The methods of [mxCellEditor] *)

Section Methods.
Variable graph : mxGraph.
Local Open Scope Q_scope.

(** [init]: a fresh, detached textarea; the change handler is made
    and registered with the model. *)
Definition init : M unit :=
  update (set_textarea (Some {| value := ""; style_textAlign := "";
                                style_display := ""; parentNode := false |})) ;;
  update (set_changeHandler true) ;;
  model_addListener.

Definition isModified : M bool := e ← get; mret (modified e).

Definition setModified (v : bool) : M unit := update (set_modified v).

Definition getCurrentValue : M string :=
  t ← the_textarea; mret (remove_cr (value t)).

Definition stopEditing (cancel : bool) : M unit :=
  e ← get;
  match editingCell e with
  | None => mret tt
  | Some c =>
      match textNode e with
      | TN_null => mret tt
      | TN_node n => set_visibility n true ;; update (set_textNode TN_null)
      | TN_empty_string => throw (* [''.style] is [undefined] *)
      end ;;
      m ← isModified;
      (if negb cancel && m
       then v ← getCurrentValue; graph_labelChanged c v (trigger e)
       else mret tt) ;;
      match textDiv e with
      | Some _ => update (set_textDiv None)
      | None => mret tt
      end ;;
      update (set_editingCell None) ;;
      update (set_trigger None) ;;
      update (set_bounds None) ;;
      t ← the_textarea; (* [this.textarea.blur()] *)
      if parentNode t
      then update (set_textarea (Some (ta_set_parentNode false t)))
      else throw (* [this.textarea.parentNode] is [null] *)
  end.

Definition focusLost : M unit :=
  stopEditing (negb (isInvokesStopCellEditing graph)).

Definition getInitialValue (state : mxCellState) (evt : option Trigger)
  : option string :=
  getEditingValue graph (cell state) evt.

Definition isHideLabel (state : mxCellState) : bool := true.

Definition getEmptyLabelText : M string := e ← get; mret (emptyLabelText e).

Definition getMinimumSize (state : mxCellState) : M mxRectangle :=
  let scale := scale graph in
  t ← the_textarea;
  mret {| x := 0; y := 0;
          width := match text state with
                   | None => 30
                   | Some tx => size tx * scale + 20
                   end;
          height := if String.eqb (style_textAlign t) "left" then 120 else 40 |}.

(** The horizontal and vertical label positions, as both
    [getEditorBounds] and [resize] apply them. *)
Definition apply_label_position (state : mxCellState) (result : mxRectangle)
  : mxRectangle :=
  let horizontal := getValue (style state) STYLE_LABEL_POSITION ALIGN_CENTER in
  let result :=
    if String.eqb horizontal ALIGN_LEFT
    then rect_set_x (x result - width state) result
    else if String.eqb horizontal ALIGN_RIGHT
    then rect_set_x (x result + width state) result
    else result in
  let vertical :=
    getValue (style state) STYLE_VERTICAL_LABEL_POSITION ALIGN_MIDDLE in
  if String.eqb vertical ALIGN_TOP
  then rect_set_y (y result - height state) result
  else if String.eqb vertical ALIGN_BOTTOM
  then rect_set_y (y result + height state) result
  else result.

Definition getEditorBounds (state : mxCellState) : M mxRectangle :=
  let isEdge := isEdge graph (cell state) in
  let scale := scale graph in
  minSize ← getMinimumSize state;
  let minWidth := width minSize in
  let minHeight := height minSize in
  let spacing := parseInt_or (style state) STYLE_SPACING 2 * scale in
  let spacingTop := parseInt_or (style state) STYLE_SPACING_TOP 0 * scale + spacing in
  let spacingRight := parseInt_or (style state) STYLE_SPACING_RIGHT 0 * scale + spacing in
  let spacingBottom := parseInt_or (style state) STYLE_SPACING_BOTTOM 0 * scale + spacing in
  let spacingLeft := parseInt_or (style state) STYLE_SPACING_LEFT 0 * scale + spacing in
  let result :=
    {| x := x state; y := y state;
       width := Math_max minWidth (width state - spacingLeft - spacingRight);
       height := Math_max minHeight (height state - spacingTop - spacingBottom) |} in
  let bbox := text state ≫= boundingBox in
  let result :=
    if isEdge then
      let result := rect_set_x (pt_x (absoluteOffset state)) result in
      let result := rect_set_y (pt_y (absoluteOffset state)) result in
      match bbox with
      | Some bb =>
          let result := if gtb (x bb) 0 then rect_set_x (x bb) result else result in
          if gtb (y bb) 0 then rect_set_y (y bb) result else result
      | None => result
      end
    else
      match bbox with
      | Some bb =>
          let result := rect_set_x (Math_min (x result) (x bb)) result in
          rect_set_y (Math_min (y result) (y bb)) result
      | None => result
      end in
  let result := rect_set_x (x result + spacingLeft) result in
  let result := rect_set_y (y result + spacingTop) result in
  let result :=
    match bbox with
    | Some bb =>
        if negb isEdge then
          let result := rect_set_width (Math_max (width result) (width bb)) result in
          rect_set_height (Math_max (height result) (height bb)) result
        else
          let result := rect_set_width (Math_max minWidth (width bb)) result in
          rect_set_height (Math_max minHeight (height bb)) result
    | None => result
    end in
  let result :=
    if isVertex graph (cell state)
    then apply_label_position state result
    else result in
  mret result.

(** [resize].  The measuring of the text and the pixel geometry
    written to the textarea leave no trace in the model; what remains
    of that part is where it dereferences [this.textarea] and
    [this.bounds].  (The alignment point [m] is never [null]: when the
    label has no margin the toolkit's [mxUtils.getAlignmentAsPoint]
    supplies one.) *)
Definition resize : M unit :=
  e ← get;
  match textDiv e with
  | None => mret tt
  | Some _ =>
      match editingCell e ≫= getState graph with
      | None => stopEditing true
      | Some state =>
          let isEdge := isEdge graph (cell state) in
          (if isEdge then
             match bounds e with
             | Some _ =>
                 update (set_bounds (Some
                   {| x := pt_x (absoluteOffset state);
                      y := pt_y (absoluteOffset state);
                      width := 0; height := 0 |}))
             | None => throw (* [this.bounds.x = ...] *)
             end
           else
             match bounds e with
             | Some _ =>
                 update (set_bounds (Some (apply_label_position state
                   {| x := x state; y := y state;
                      width := width state; height := height state |})))
             | None => mret tt
             end) ;;
          _ ← the_textarea; (* [this.textarea.value] *)
          e' ← get;
          match bounds e' with
          | Some _ => mret tt
          | None => throw (* [this.bounds.width], [this.bounds.y] *)
          end
      end
  end.

Definition createTextDiv : M HTMLDivElement :=
  t ← the_textarea; mret {| div_textAlign := style_textAlign t |}.

Definition startEditing (c : Cell) (evt : option Trigger) : M unit :=
  e ← get;
  match textarea e with
  | None => init
  | Some _ => mret tt
  end ;;
  stopEditing true ;;
  match getState graph c with
  | None => mret tt
  | Some state =>
      update (set_editingCell (Some c)) ;;
      update (set_trigger evt) ;;
      update (set_textNode TN_null) ;;
      match text state with
      | Some tx =>
          if isHideLabel state
          then update (set_textNode (TN_node (node tx))) ;;
               set_visibility (node tx) false
          else mret tt
      | None => mret tt
      end ;;
      let align := getValue (style state) STYLE_ALIGN ALIGN_LEFT in
      t ← the_textarea;
      update (set_textarea (Some (ta_set_textAlign align t))) ;;
      bounds ← getEditorBounds state;
      update (set_bounds (Some bounds)) ;;
      let value := getInitialValue state evt in
      value ← match value with
              | Some (String a rest) =>
                  update (set_clearOnChange (Some false)) ;;
                  mret (String a rest)
              | _ =>
                  v ← getEmptyLabelText;
                  update (set_clearOnChange (Some true)) ;;
                  mret v
              end;
      setModified false ;;
      t ← the_textarea;
      update (set_textarea (Some (ta_set_value value t))) ;;
      (* [this.graph.container.appendChild(this.textarea)] *)
      t ← the_textarea;
      update (set_textarea (Some (ta_set_parentNode true t))) ;;
      t ← the_textarea;
      if negb (String.eqb (style_display t) "none") then
        e ← get;
        if autoSize e then
          div ← createTextDiv;
          update (set_textDiv (Some div)) ;;
          resize
        else mret tt
        (* [focus()], [select()]: no state in the model *)
      else mret tt
  end.

Definition destroy : M unit :=
  e ← get;
  match textarea e with
  | Some t =>
      (* [mxEvent.release(this.textarea)] detaches the DOM listeners *)
      update (set_textarea None) ;;
      if changeHandler e
      then model_removeListener ;; update (set_changeHandler false)
      else mret tt
  | None => mret tt
  end.

(** **** The listeners installed by [init] *)

Definition on_blur : M unit := focusLost.

Definition on_change : M unit := setModified true.

(** Modelled from the spec: [graph.stopEditing(cancel)], the toolkit's
    entry point, hands over to the editor's [stopEditing]. *)
Definition graph_stopEditing (cancel : bool) : M unit := stopEditing cancel.

(** The key is F2, or a plain Enter where Enter stops editing. *)
Definition is_stop_key (evt : KeyEvent) : bool :=
  Nat.eqb (keyCode evt) 113 ||
  (isEnterStopsCellEditing graph && Nat.eqb (keyCode evt) 13 &&
   negb (isControlDown evt) && negb (isShiftDown evt)).

Definition on_keydown (evt : KeyEvent) : M unit :=
  if negb (isConsumed evt) then
    if is_stop_key evt then graph_stopEditing false
    else if Nat.eqb (keyCode evt) 27 then graph_stopEditing true
    else
      e ← get;
      (if default false (clearOnChange e) then
         update (set_clearOnChange (Some false)) ;;
         t ← the_textarea;
         update (set_textarea (Some (ta_set_value "" t)))
       else mret tt) ;;
      setModified true
  else mret tt.

Definition changeHandler_fn : M unit :=
  e ← get;
  match editingCell e with
  | Some c =>
      match getState graph c with
      | None => stopEditing true
      | Some _ => mret tt
      end
  | None => mret tt
  end.

End Methods.

(** *** The editor in use *)

(** What can happen to an editor: the host calls a public method or
    sets a public flag, the browser delivers an event to a listener of
    the textarea (which exists only while the textarea does) or runs
    the deferred [resize], or the model announces a change to the
    registered handler. *)
Inductive Op :=
| StartEditing (c : Cell) (evt : option Trigger)
| StopEditing (cancel : bool)
| Resize
| Destroy
| SetModified (v : bool)
| Configure (autoSize' selectText' : bool) (emptyLabelText' : string)
| SetDisplay (display : string)
| Typed (v : string)
| Keydown (evt : KeyEvent)
| Change
| Blur
| ModelChange.

Definition with_textarea (k : HTMLTextAreaElement → M unit) : M unit :=
  e ← get;
  match textarea e with
  | Some t => k t
  | None => mret tt
  end.

Definition call (graph : mxGraph) (op : Op) : M unit :=
  match op with
  | StartEditing c evt => startEditing graph c evt
  | StopEditing cancel => stopEditing cancel
  | Resize => resize graph
  | Destroy => destroy
  | SetModified v => setModified v
  | Configure a s t => update (set_flags a s t)
  | SetDisplay d =>
      with_textarea (λ t, update (set_textarea (Some (ta_set_display d t))))
  | Typed v => with_textarea (λ t, update (set_textarea (Some (ta_set_value v t))))
  | Keydown evt => with_textarea (λ _, on_keydown graph evt)
  | Change => with_textarea (λ _, on_change)
  | Blur => with_textarea (λ _, on_blur graph)
  | ModelChange =>
      e ← get; if changeHandler e then changeHandler_fn graph else mret tt
  end.

(** The state after an operation, whether it returned or threw. *)
Definition exec (graph : mxGraph) (op : Op) (w : World) : World :=
  world_of (call graph op w).

(** A history: operations, each with the graph as it is at that time. *)
Fixpoint run (history : list (mxGraph * Op)) (w : World) : World :=
  match history with
  | [] => w
  | (graph, op) :: rest => run rest (exec graph op w)
  end.

Definition reachable (w : World) : Prop :=
  ∃ history, w = run history new_World.

(* --------------------------------------------------------------------- *)
(** ** Vocabulary for the properties of the editor *)
(* --------------------------------------------------------------------- *)

(** What holds of every reachable state. *)
Record Inv (w : World) : Prop := {
  inv_textDiv_cell : is_Some (textDiv (this w)) → is_Some (editingCell (this w));
  inv_textDiv_bounds : is_Some (textDiv (this w)) → is_Some (bounds (this w));
  inv_textNode : is_Some (editingCell (this w)) → textNode (this w) ≠ TN_empty_string;
  inv_attached : is_Some (editingCell (this w)) →
                 ∀ t, textarea (this w) = Some t → parentNode t = true;
  inv_handler : changeHandler (this w) = true ↔ is_Some (textarea (this w));
  inv_listeners : modelListeners w = if changeHandler (this w) then 1%nat else 0%nat
}.

(** *** Weakest preconditions *)

(** [wp m Q R w]: run from [w], [m] either returns [a] in a state with
    [Q a], or throws in a state with [R]. *)
Definition wp {A} (m : M A) (Q : A → World → Prop) (R : World → Prop)
    (w : World) : Prop :=
  match m w with
  | Ok a w' => Q a w'
  | TypeError w' => R w'
  end.

(** No session, a textarea, and the handler registered: the state
    in which [startEditing] begins the new session. *)
Record Idle (w : World) : Prop := {
  idle_cell : editingCell (this w) = None;
  idle_textDiv : textDiv (this w) = None;
  idle_textarea : is_Some (textarea (this w));
  idle_handler : changeHandler (this w) = true;
  idle_listeners : modelListeners w = 1%nat
}.

(** After the lazy [init] of [startEditing]: there is a textarea, but
    it need not be attached, even with a cell still recorded as edited
    (the editor was destroyed during a session). *)
Record Initialised (w : World) : Prop := {
  initd_textDiv_cell : is_Some (textDiv (this w)) → is_Some (editingCell (this w));
  initd_textNode : is_Some (editingCell (this w)) → textNode (this w) ≠ TN_empty_string;
  initd_textarea : is_Some (textarea (this w));
  initd_handler : changeHandler (this w) = true;
  initd_listeners : modelListeners w = 1%nat
}.

(** *** Ending a session *)

(** The state [stopEditing(cancel)] leaves when a session on [c] is
    active and the textarea [t] is attached. *)
Definition stopped (cancel : bool) (c : Cell) (t : HTMLTextAreaElement)
    (w : World) : World :=
  let e := this w in
  {| this :=
       set_textarea (Some (ta_set_parentNode false t))
         (set_bounds None (set_trigger None (set_editingCell None
           (set_textDiv None
             (match textNode e with
              | TN_node _ => set_textNode TN_null e
              | _ => e
              end)))));
     labelChanged :=
       if negb cancel && modified e
       then labelChanged w ++ [(c, remove_cr (value t), trigger e)]
       else labelChanged w;
     hidden :=
       match textNode e with
       | TN_node n => hidden w ∖ {[n]}
       | _ => hidden w
       end;
     modelListeners := modelListeners w |}.

(** The text ["a\r\nb"] and what is committed for it. *)
Definition a_cr_lf_b : string :=
  String "a" (String "013" (String "010" (String "b" EmptyString))).
Definition a_lf_b : string :=
  String "a" (String "010" (String "b" EmptyString)).

(** *** Starting a session *)

(** The editor has not been destroyed in the middle of a session. *)
Definition intact (w : World) : Prop :=
  is_Some (editingCell (this w)) → is_Some (textarea (this w)).

(** The text the overlay starts with, and whether it is the
    placeholder. *)
Definition label_is_empty (graph : mxGraph) (state : mxCellState)
    (evt : option Trigger) : bool :=
  match getInitialValue graph state evt with
  | Some (String _ _) => false
  | _ => true
  end.

Definition initial_text (graph : mxGraph) (state : mxCellState)
    (evt : option Trigger) (placeholder : string) : string :=
  match getInitialValue graph state evt with
  | Some (String a rest) => String a rest
  | _ => placeholder
  end.

(** The state in which [startEditing(c, evt)] leaves an editor whose
    placeholder text is [el], for a cell rendered as [state]. *)
Record Started (graph : mxGraph) (c : Cell) (evt : option Trigger)
    (state : mxCellState) (el : string) (w : World) : Prop := {
  started_cell : editingCell (this w) = Some c;
  started_trigger : trigger (this w) = evt;
  started_modified : modified (this w) = false;
  started_textarea :
    ∃ t, textarea (this w) = Some t ∧ parentNode t = true ∧
         value t = initial_text graph state evt el;
  started_clearOnChange :
    clearOnChange (this w) = Some (label_is_empty graph state evt);
  started_placeholder : emptyLabelText (this w) = el;
  started_textNode :
    textNode (this w) =
      match text state with
      | Some tx => TN_node (node tx)
      | None => TN_null
      end;
  started_hidden : ∀ tx, text state = Some tx → node tx ∈ hidden w
}.

Definition start_outcome (graph : mxGraph) (c : Cell) (evt : option Trigger)
    (el : string) (w : World) : Prop :=
  match getState graph c with
  | Some state => Started graph c evt state el w
  | None => editingCell (this w) = None
  end.

(** *** The placeholder of an empty label *)

(** A key that reaches the last branch of the [keydown] listener: not
    consumed, not a key that stops editing, not Escape. *)
Definition modifying_keystroke (graph : mxGraph) (evt : KeyEvent) : bool :=
  negb (isConsumed evt) && negb (is_stop_key graph evt) &&
  negb (Nat.eqb (keyCode evt) 27).

Definition is_start (step : mxGraph * Op) : bool :=
  match step with
  | (_, StartEditing _ _) => true
  | _ => false
  end.

Definition is_modifying (step : mxGraph * Op) : bool :=
  match step with
  | (graph, Keydown evt) => modifying_keystroke graph evt
  | _ => false
  end.

(** A stretch of a session with no modifying keystroke, and one in
    which no other session is started. *)
Definition quiet (history : list (mxGraph * Op)) : bool :=
  forallb (λ step, negb (is_start step) && negb (is_modifying step)) history.
Definition same_session (history : list (mxGraph * Op)) : bool :=
  forallb (λ step, negb (is_start step)) history.

(** *** After [destroy] *)

(** The operations that are without effect on a destroyed editor: all
    but [startEditing] and the two setters of public fields. *)
Definition inert_when_destroyed (op : Op) : bool :=
  match op with
  | StartEditing _ _ | SetModified _ | Configure _ _ _ => false
  | _ => true
  end.

(** What C8 asks of an operation on a destroyed editor. *)
Definition inert (graph : mxGraph) (op : Op) (w : World) : Prop :=
  call graph op w = Ok tt w.

(** *** What the specification claims, where the code differs *)

(** What C1 asks of [startEditing(e2, t2)] in a state [w] with a
    session: a [labelChanged] call for the cell of that session. *)
Definition commits_pending_edit (graph : mxGraph) (e2 : Cell)
    (t2 : option Trigger) (w : World) : Prop :=
  ∃ e1 v t,
    editingCell (this w) = Some e1 ∧
    (e1, v, t) ∈ labelChanged (exec graph (StartEditing e2 t2) w).

Section GeometryVocabulary.
Local Open Scope Q_scope.

(** The minimum width C4 states. *)
Definition claimed_minimum_width (graph : mxGraph) (state : mxCellState) : Q :=
  match text state with
  | Some tx => Math_max 30 (size tx * scale graph + 20)
  | None => 30
  end.

(** The same cell state with another horizontal label position. *)
Definition with_label_position (p : string) (state : mxCellState)
  : mxCellState :=
  {| as_mxRectangle := as_mxRectangle state;
     cell := cell state;
     absoluteOffset := absoluteOffset state;
     style := {| numbers := numbers (style state);
                 strings := <[STYLE_LABEL_POSITION := p]> (strings (style state)) |};
     text := text state |}.

(** The vertical label position moves [y], whatever the horizontal
    one is. *)
Definition shifted_y (state : mxCellState) (r : mxRectangle) : Q :=
  let vertical :=
    getValue (style state) STYLE_VERTICAL_LABEL_POSITION ALIGN_MIDDLE in
  if String.eqb vertical ALIGN_TOP then y r - height state
  else if String.eqb vertical ALIGN_BOTTOM then y r + height state
  else y r.

(** No spacing is set in the style, so that the defaults apply: 2 for
    the spacing, 0 for the spacing of each side. *)
Definition default_spacings (s : Style) : Prop :=
  numbers s !! STYLE_SPACING = None ∧
  numbers s !! STYLE_SPACING_TOP = None ∧
  numbers s !! STYLE_SPACING_RIGHT = None ∧
  numbers s !! STYLE_SPACING_BOTTOM = None ∧
  numbers s !! STYLE_SPACING_LEFT = None.

End GeometryVocabulary.

(** *** A small diagram, and editors in various states *)

Definition no_style : Style := {| numbers := ∅; strings := ∅ |}.

(** Cell 1: a 100x40 node at (10,20) whose label "old" is rendered
    by the DOM node 7.  Cell 2: the same node shape, with an empty
    label and nothing rendered for it. *)
Definition state_1 : mxCellState :=
  {| as_mxRectangle := {| x := 10; y := 20; width := 100; height := 40 |};
     cell := 1%nat;
     absoluteOffset := {| pt_x := 0; pt_y := 0 |};
     style := no_style;
     text := Some {| node := 7%nat; boundingBox := None; margin := None;
                     size := 11 |} |}.
Definition state_2 : mxCellState :=
  {| as_mxRectangle := {| x := 10; y := 20; width := 100; height := 40 |};
     cell := 2%nat;
     absoluteOffset := {| pt_x := 0; pt_y := 0 |};
     style := no_style;
     text := None |}.

Section ExampleGeometry.
Local Open Scope Q_scope.

(** A node drawn with an 8pt label. *)
Definition state_small_font : mxCellState :=
  {| as_mxRectangle := {| x := 10; y := 20; width := 100; height := 40 |};
     cell := 1%nat;
     absoluteOffset := {| pt_x := 0; pt_y := 0 |};
     style := no_style;
     text := Some {| node := 7%nat; boundingBox := None; margin := None;
                     size := 8 |} |}.

End ExampleGeometry.

Definition demo_graph : mxGraph :=
  {| getState := λ c, match c with
                      | 1%nat => Some state_1
                      | 2%nat => Some state_2
                      | _ => None
                      end;
     scale := 1;
     isEdge := λ _, false;
     isVertex := λ _, true;
     getEditingValue := λ c _, match c with
                               | 1%nat => Some "old"
                               | _ => Some ""
                               end;
     isLabelClipped := λ _, false;
     isWrapping := λ _, false;
     isEnterStopsCellEditing := false;
     isInvokesStopCellEditing := false |}.

(** The same diagram after its cells have been removed from view. *)
Definition gone_graph : mxGraph :=
  {| getState := λ _, None;
     scale := 1;
     isEdge := λ _, false;
     isVertex := λ _, true;
     getEditingValue := λ _ _, None;
     isLabelClipped := λ _, false;
     isWrapping := λ _, false;
     isEnterStopsCellEditing := false;
     isInvokesStopCellEditing := false |}.

Definition key_x : KeyEvent :=
  {| keyCode := 88; isConsumed := false; isControlDown := false;
     isShiftDown := false |}.

(** A session on cell 1, started by event 5, in which a key was
    pressed and the text became ["a\r\nb"]. *)
Definition w_editing : World :=
  run [(demo_graph, StartEditing 1%nat (Some 5%nat));
       (demo_graph, Keydown key_x);
       (demo_graph, Typed a_cr_lf_b)] new_World.

Definition ta_editing : HTMLTextAreaElement :=
  {| value := a_cr_lf_b; style_textAlign := "left"; style_display := "";
     parentNode := true |}.

(** A session on cell 1 in an editor with [autoSize] switched off: no
    measuring [div] is made. *)
Definition w_fixed_size : World :=
  run [(demo_graph, Configure false true "");
       (demo_graph, StartEditing 1%nat None)] new_World.

(** An editor whose placeholder is "[Type Here]". *)
Definition w_placeholder : World :=
  run [(demo_graph, Configure true true "[Type Here]")] new_World.

(** An editor that has been used and is idle again. *)
Definition w_used : World :=
  run [(demo_graph, StartEditing 1%nat None);
       (demo_graph, StopEditing true)] new_World.

(** An editor that has been used, and then destroyed. *)
Definition w_destroyed : World :=
  run [(demo_graph, StartEditing 1%nat None);
       (demo_graph, StopEditing true);
       (demo_graph, Destroy)] new_World.

(* --------------------------------------------------------------------- *)
(** ** More of the editor, and more vocabulary *)
(* --------------------------------------------------------------------- *)


(** What the editor shows, in every reachable state: the one label it
    has hidden is that of [textNode]; with no session no label node is
    held; and the textarea is attached only during a session. *)
Record Shown (w : World) : Prop := {
  shown_hidden :
    hidden w = match textNode (this w) with TN_node n => {[n]} | _ => ∅ end;
  shown_idle : editingCell (this w) = None → ∀ n, textNode (this w) ≠ TN_node n;
  shown_attached :
    ∀ t, textarea (this w) = Some t → parentNode t = true →
         is_Some (editingCell (this w))
}.

(** The operations that can end in a call of [labelChanged]:
    [stopEditing(false)], a key that stops editing, and the loss of
    focus where the graph invokes [stopEditing] for it. *)
Definition commits (graph : mxGraph) (op : Op) : bool :=
  match op with
  | StopEditing cancel => negb cancel
  | Keydown evt => negb (isConsumed evt) && is_stop_key graph evt
  | Blur => isInvokesStopCellEditing graph
  | _ => false
  end.

(** The calls of [labelChanged] an operation makes in state [w]. *)
Definition committed (graph : mxGraph) (op : Op) (w : World) : list LabelChange :=
  match editingCell (this w), textarea (this w) with
  | Some c, Some t =>
      if commits graph op && modified (this w)
      then [(c, remove_cr (value t), trigger (this w))]
      else []
  | _, _ => []
  end.

(** What may still arrive when a session has ended: a repeated
    [stopEditing], the deferred [resize], the [blur] of the textarea, a
    change of the model, and a key that is consumed or ends editing. *)
Definition late_event (graph : mxGraph) (op : Op) : bool :=
  match op with
  | StopEditing _ | Resize | Blur | ModelChange => true
  | Keydown evt =>
      isConsumed evt || is_stop_key graph evt || Nat.eqb (keyCode evt) 27
  | _ => false
  end.

(** A plain Enter: neither Control nor Shift is held. *)
Definition plain_enter (evt : KeyEvent) : bool :=
  Nat.eqb (keyCode evt) 13 && negb (isControlDown evt) && negb (isShiftDown evt).

(** The bounds [resize] gives the session of a cell rendered as
    [state]: for an edge the label offset with no extent, for other
    cells the cell's rectangle moved by the label position. *)
Definition resized_bounds (graph : mxGraph) (state : mxCellState) : mxRectangle :=
  if isEdge graph (cell state) then
    {| x := pt_x (absoluteOffset state); y := pt_y (absoluteOffset state);
       width := 0; height := 0 |}
  else
    apply_label_position state
      {| x := x state; y := y state;
         width := width state; height := height state |}.

(** A session: start, type [v], the [change] event, and
    [stopEditing(false)]. *)
Definition type_and_commit (graph : mxGraph) (c : Cell) (evt : option Trigger)
    (v : string) : list (mxGraph * Op) :=
  [(graph, StartEditing c evt); (graph, Typed v); (graph, Change);
   (graph, StopEditing false)].

(** The [keydown] listener takes the key for an ordinary keystroke of
    the session on [c]: the session goes on, marked as modified, with
    the text cleared if it was the placeholder, and nothing is
    committed. *)
Definition goes_on (graph : mxGraph) (evt : KeyEvent) (c : Cell)
    (t : HTMLTextAreaElement) (w : World) : Prop :=
  ∃ w', call graph (Keydown evt) w = Ok tt w' ∧
        editingCell (this w') = Some c ∧
        modified (this w') = true ∧
        labelChanged w' = labelChanged w ∧
        textarea (this w') =
          Some (if default false (clearOnChange (this w))
                then ta_set_value "" t else t).

Definition key_escape : KeyEvent :=
  {| keyCode := 27; isConsumed := false; isControlDown := false;
     isShiftDown := false |}.

Section MoreGeometry.
Local Open Scope Q_scope.

(** The same cell state without the numeric style entry [key]. *)
Definition without_number (key : string) (state : mxCellState) : mxCellState :=
  {| as_mxRectangle := as_mxRectangle state;
     cell := cell state;
     absoluteOffset := absoluteOffset state;
     style := {| numbers := delete key (numbers (style state));
                 strings := strings (style state) |};
     text := text state |}.

(** Cell 1 drawn with [spacing=0] in its style. *)
Definition state_zero_spacing : mxCellState :=
  {| as_mxRectangle := {| x := 10; y := 20; width := 100; height := 40 |};
     cell := 1%nat;
     absoluteOffset := {| pt_x := 0; pt_y := 0 |};
     style := {| numbers := {[ STYLE_SPACING := 0 ]}; strings := ∅ |};
     text := None |}.

(** An edge, cell 3, whose label is at (50, 60). *)
Definition state_edge : mxCellState :=
  {| as_mxRectangle := {| x := 10; y := 20; width := 100; height := 40 |};
     cell := 3%nat;
     absoluteOffset := {| pt_x := 50; pt_y := 60 |};
     style := no_style;
     text := None |}.

End MoreGeometry.

Definition edge_graph : mxGraph :=
  {| getState := λ c, match c with 3%nat => Some state_edge | _ => None end;
     scale := 1;
     isEdge := λ _, true;
     isVertex := λ _, false;
     getEditingValue := λ _ _, Some "";
     isLabelClipped := λ _, true;
     isWrapping := λ _, false;
     isEnterStopsCellEditing := false;
     isInvokesStopCellEditing := false |}.

(** *** The measuring part of [resize] *)

(** [Math.round]: to the nearest integer, a half upwards. *)
Definition Math_round (a : Q) : Q := inject_Z (Qfloor (a + (1 # 2))%Q).

(** [s.replace(/c/g, by)]: every character [c] replaced by [by]. *)
Fixpoint replace_char (c : ascii) (by_ : string) (s : string) : string :=
  match s with
  | EmptyString => EmptyString
  | String a rest =>
      if Ascii.eqb a c then by_ ++ replace_char c by_ rest
      else String a (replace_char c by_ rest)
  end.

(** [value.charAt(value.length - 1) == '\n']. *)
Fixpoint ends_with_newline (value : string) : bool :=
  match value with
  | EmptyString => false
  | String a EmptyString => Ascii.eqb a "010"
  | String _ rest => ends_with_newline rest
  end.

(** Modelled from the spec: the style key of the vertical alignment,
    which the source names and does not define; it only needs to be
    distinct from the other keys. *)
Definition STYLE_VERTICAL_ALIGN : string := "verticalAlign".

(** What [resize] assigns to the style of the textarea, in pixels;
    [None] where it leaves a property as it is. *)
Record Placement := {
  style_left : option Q;
  style_top : option Q;
  style_width : option Q;
  style_height : Q
}.

Section Measuring.
(** The toolkit's [mxUtils.htmlEntities(s, false)] and
    [mxUtils.getAlignmentAsPoint(align, valign)] are not part of these
    sources: what follows holds whatever they return. *)
Variable htmlEntities : string → string.
Variable getAlignmentAsPoint : string → string → option mxPoint.
Local Open Scope Q_scope.

(** The HTML given to the measuring [div] for the text [value]. *)
Definition measured_html (wrap : bool) (value : string) : string :=
  let value :=
    if ends_with_newline value || String.eqb value ""
    then (value ++ "&nbsp;")%string else value in
  let value := htmlEntities value in
  let value := if wrap then value else replace_char " " "&nbsp;" value in
  replace_char "010" "<br/>" value.

(** The size and position computed from the measured
    [textDiv.offsetWidth] and [textDiv.offsetHeight], for the session's
    [bounds]. *)
Definition resize_placement (graph : mxGraph) (state : mxCellState)
    (bounds : mxRectangle) (offsetWidth offsetHeight : Q) : Placement :=
  let clip := isLabelClipped graph (cell state) in
  let wrap := isWrapping graph (cell state) in
  let ow := offsetWidth + 30 in
  let oh := offsetHeight + 16 in
  let ow := Math_max ow 40 in
  let oh := Math_max oh 20 in
  let ow := if clip then Math_min (width bounds - 4) ow else ow in
  let oh := if clip then Math_min (height bounds) oh else oh in
  let m :=
    match text state ≫= margin with
    | Some m => Some m
    | None =>
        let align := getValue (style state) STYLE_ALIGN ALIGN_CENTER in
        let valign := getValue (style state) STYLE_VERTICAL_ALIGN ALIGN_MIDDLE in
        getAlignmentAsPoint align valign
    end in
  {| style_left :=
       match m with
       | Some m =>
           if clip || negb wrap
           then Some (Math_max 0
                  (Math_round (x bounds - pt_x m * width bounds + pt_x m * ow) - 3))
           else None
       | None => None
       end;
     style_top :=
       match m with
       | Some m =>
           Some (Math_max 0
             (Math_round (y bounds - pt_y m * height bounds + pt_y m * oh) + 4))
       | None => None
       end;
     style_width := if clip || negb wrap then Some ow else None;
     style_height := oh |}.

End Measuring.

(** *** The layout at the start of a session *)

(** [this.textarea.style.display], as [startEditing] will find it: a
    textarea made by [init] has the empty string there. *)
Definition display_of (w : World) : string :=
  match textarea (this w) with
  | Some t => style_display t
  | None => ""
  end.

(** Whether [startEditing] will make the measuring [div] and call
    [resize]: the textarea is displayed and [autoSize] is on. *)
Definition measures (w : World) : bool :=
  negb (String.eqb (display_of w) "none") && autoSize (this w).

(** [r] is what [getEditorBounds(state)] returns on an editor whose
    textarea has the text alignment [align]. *)
Definition bounds_for (graph : mxGraph) (state : mxCellState) (align : string)
    (r : mxRectangle) : Prop :=
  ∀ w t, textarea (this w) = Some t → style_textAlign t = align →
         getEditorBounds graph state w = Ok r w.

(** How [startEditing] leaves the session of a cell rendered as
    [state]: with the measuring [div] and the bounds of [resize] when
    it measures, and with the bounds of [getEditorBounds] and no [div]
    when it does not. *)
Definition laid_out (graph : mxGraph) (state : mxCellState) (measured : bool)
    (w : World) : Prop :=
  let align := getValue (style state) STYLE_ALIGN ALIGN_LEFT in
  (∃ t, textarea (this w) = Some t ∧ style_textAlign t = align) ∧
  if measured
  then textDiv (this w) = Some {| div_textAlign := align |} ∧
       bounds (this w) = Some (resized_bounds graph state)
  else textDiv (this w) = None ∧
       ∃ r, bounds (this w) = Some r ∧ bounds_for graph state align r.

(** A session in which nothing is typed, but the [change] event (or
    the host, through [setModified(true)]) marks it as modified. *)
Definition change_and_commit (graph : mxGraph) (c : Cell) (evt : option Trigger)
  : list (mxGraph * Op) :=
  [(graph, StartEditing c evt); (graph, Change); (graph, StopEditing false)].

End CellEditor.

(* ===================================================================== *)
(** * Part II: lemmas and theorems *)
(* ===================================================================== *)

(* --------------------------------------------------------------------- *)
(** ** bouncingballs.js *)
(* --------------------------------------------------------------------- *)

Module BouncingBallsProofs.
Import JsNum BouncingBalls.

Lemma Math_abs_neg_abs (a : Q) : Math_abs (- Math_abs a) = Math_abs a.
Proof.
  destruct a as [n d]. unfold Math_abs, Qabs, Qopp; simpl.
  by rewrite Z.abs_opp, Z.abs_idemp.
Qed.

Lemma Math_abs_abs (a : Q) : Math_abs (Math_abs a) = Math_abs a.
Proof.
  destruct a as [n d]. unfold Math_abs, Qabs; simpl.
  by rewrite Z.abs_idemp.
Qed.

(** *** [filterInPlace] computes [filter] *)

Section FilterInPlace.
Context {A : Type}.
Variable cond : A → bool.

Lemma Array_filter_app (l1 l2 : list A) :
  Array_filter cond (l1 ++ l2) = Array_filter cond l1 ++ Array_filter cond l2.
Proof.
  induction l1 as [|e l1 IH]; simpl; [done|].
  destruct (cond e); simpl; by rewrite IH.
Qed.

Lemma Array_filter_take_S (l : list A) (i : nat) (e : A) :
  l !! i = Some e →
  Array_filter cond (take (S i) l) =
    Array_filter cond (take i l) ++ (if cond e then [e] else []).
Proof.
  intros Hi. rewrite (take_S_r _ _ _ Hi), Array_filter_app. simpl.
  by destruct (cond e).
Qed.

Lemma loop_inv_init (orig : list A) : loop_inv cond orig orig 0 0.
Proof. unfold loop_inv. simpl. rewrite !take_0. repeat split; lia || done. Qed.

Lemma loop_inv_lookup (orig this : list A) (i removed : nat) (e : A) :
  loop_inv cond orig this i removed → this !! i = Some e → orig !! i = Some e.
Proof.
  intros (_ & _ & _ & _ & Hd) He.
  rewrite <- (Nat.add_0_r i), <- lookup_drop, <- Hd, lookup_drop, Nat.add_0_r.
  done.
Qed.

Lemma loop_inv_drop_S (orig this : list A) (i : nat) :
  drop i this = drop i orig → drop (S i) this = drop (S i) orig.
Proof.
  intros Hd. rewrite <- (Nat.add_1_r i), <- !drop_drop. by rewrite Hd.
Qed.

(** One iteration keeps the invariant, whichever branch is taken. *)
Lemma loop_inv_skip (orig this : list A) (i removed : nat) (e : A) :
  loop_inv cond orig this i removed → this !! i = Some e → cond e = false →
  loop_inv cond orig this (S i) (S removed).
Proof.
  intros Hinv He Hc. pose proof (loop_inv_lookup _ _ _ _ _ Hinv He) as Ho.
  destruct Hinv as (Hl & Hr & Hi & Ht & Hd).
  pose proof (lookup_lt_Some _ _ _ Ho) as Hlt.
  unfold loop_inv. repeat split; [done|lia|lia| |].
  - rewrite (Array_filter_take_S _ _ _ Ho), Hc, app_nil_r. simpl. done.
  - by apply loop_inv_drop_S.
Qed.

Lemma loop_inv_move (orig this : list A) (i removed : nat) (e : A) :
  loop_inv cond orig this i removed → this !! i = Some e → cond e = true →
  0 < removed →
  loop_inv cond orig (<[i - removed := e]> this) (S i) removed.
Proof.
  intros Hinv He Hc Hpos. pose proof (loop_inv_lookup _ _ _ _ _ Hinv He) as Ho.
  destruct Hinv as (Hl & Hr & Hi & Ht & Hd).
  pose proof (lookup_lt_Some _ _ _ Ho) as Hlt.
  unfold loop_inv. rewrite length_insert.
  repeat split; [done|lia|lia| |].
  - replace (S i - removed) with (S (i - removed)) by lia.
    rewrite (take_S_r _ _ e).
    + rewrite take_insert_ge by lia.
      by rewrite Ht, (Array_filter_take_S _ _ _ Ho), Hc.
    + apply list_lookup_insert_eq. lia.
  - rewrite drop_insert_lt by lia. by apply loop_inv_drop_S.
Qed.

Lemma loop_inv_keep (orig this : list A) (i : nat) (e : A) :
  loop_inv cond orig this i 0 → this !! i = Some e → cond e = true →
  loop_inv cond orig this (S i) 0.
Proof.
  intros Hinv He Hc. pose proof (loop_inv_lookup _ _ _ _ _ Hinv He) as Ho.
  destruct Hinv as (Hl & Hr & Hi & Ht & Hd).
  pose proof (lookup_lt_Some _ _ _ Ho) as Hlt.
  unfold loop_inv. repeat split; [done|lia|lia| |].
  - rewrite Nat.sub_0_r in *.
    by rewrite (take_S_r _ _ _ He), Ht, (Array_filter_take_S _ _ _ Ho), Hc.
  - by apply loop_inv_drop_S.
Qed.

(** With as many iterations allowed as cells remain, the loop ends by
    its own test, at [i = this.length]. *)
Lemma filterInPlace_loop_inv (fuel : nat) (orig this : list A) (i removed : nat) :
  loop_inv cond orig this i removed → length orig - i ≤ fuel →
  ∃ this' removed',
    filterInPlace_loop cond fuel this i removed = Some (this', removed') ∧
    loop_inv cond orig this' (length orig) removed'.
Proof.
  revert this i removed.
  induction fuel as [|fuel IH]; intros this i removed Hinv Hfuel.
  - destruct (this !! i) as [e|] eqn:He.
    + apply lookup_lt_Some in He. destruct Hinv as (Hl & _). lia.
    + simpl. rewrite He. exists this, removed. split; [done|].
      apply lookup_ge_None in He. destruct Hinv as (Hl & Hr & Hi & Ht & Hd).
      replace (length orig) with i by lia. by repeat split.
  - simpl. destruct (this !! i) as [e|] eqn:He.
    + pose proof (lookup_lt_Some _ _ _ He) as Hlt.
      assert (length orig - S i ≤ fuel) as Hfuel'
          by (destruct Hinv as (Hl & _); lia).
      destruct (cond e) eqn:Hc; simpl.
      * destruct (0 <? removed) eqn:Hr.
        -- apply IH; [|done]. apply (loop_inv_move _ _ _ _ e); try done.
           by apply Nat.ltb_lt.
        -- apply Nat.ltb_ge in Hr. assert (removed = 0) as -> by lia.
           apply IH; [|done]. by apply (loop_inv_keep _ _ _ e).
      * apply IH; [|done]. by apply (loop_inv_skip _ _ _ _ e).
    + exists this, removed. split; [done|].
      apply lookup_ge_None in He. destruct Hinv as (Hl & Hr & Hi & Ht & Hd).
      replace (length orig) with i by lia. by repeat split.
Qed.

Lemma elem_of_Array_filter (l : list A) (e : A) :
  e ∈ Array_filter cond l ↔ e ∈ l ∧ cond e = true.
Proof.
  induction l as [|d l IH]; simpl.
  - split; [by intros ?%elem_of_nil|by intros [?%elem_of_nil _]].
  - destruct (cond d) eqn:Hd; rewrite ?elem_of_cons, IH.
    + split; [intros [->|[? ?]]; auto|intros [[->|?] ?]; auto].
    + split; [intros [? ?]; auto|intros [[->|?] ?]; [congruence|auto]].
Qed.

Lemma NoDup_Array_filter (l : list A) : NoDup l → NoDup (Array_filter cond l).
Proof.
  induction 1 as [|d l Hd Hl IH]; simpl; [constructor|].
  destruct (cond d); [|done].
  constructor; [|done]. rewrite elem_of_Array_filter. by intros [? _].
Qed.

(** [Array_filter] is the [filter] of the standard library. *)
Lemma Array_filter_filter (l : list A) : Array_filter cond l = List.filter cond l.
Proof. induction l as [|e l IH]; simpl; [done|]. by rewrite IH. Qed.

(** The loop is given enough fuel: [filterInPlace] returns, with the
    filtered array. *)
Lemma filterInPlace_returns (a : list A) :
  filterInPlace cond a = Some (Array_filter cond a).
Proof.
  unfold filterInPlace.
  destruct (filterInPlace_loop_inv (length a) a a 0 0)
    as (this' & removed' & -> & Hl & Hr & Hi & Ht & Hd).
  - apply loop_inv_init.
  - lia.
  - simpl. f_equal. rewrite Hl, Ht. by rewrite firstn_all.
Qed.

End FilterInPlace.

(** C9. [a.filterInPlace(cond)] returns, and leaves in [a] exactly what
    the non-mutating [a.filter(cond)] yields: the elements of the
    original array that satisfy [cond], in their original order. *)
Theorem filterInPlace_refines_filter {A : Type} (cond : A → bool) (a : list A) :
  ∃ a',
    filterInPlace cond a = Some a' ∧
    a' = Array_filter cond a ∧
    a' = List.filter cond a ∧
    (∀ e, e ∈ a' ↔ e ∈ a ∧ cond e = true).
Proof.
  exists (Array_filter cond a). split; [apply filterInPlace_returns|].
  split; [done|]. split; [apply Array_filter_filter|].
  apply elem_of_Array_filter.
Qed.

(** Of 1, 2, 3, 4, 5, 6 the even ones are kept, in place. *)
Example filterInPlace_even :
  filterInPlace Nat.even [1; 2; 3; 4; 5; 6] = Some [2; 4; 6].
Proof. reflexivity. Qed.

(** *** The listeners keep [movingBalls] free of duplicates

    as long as the toolkit announces, as added or as deselected, only
    cells that are not moving. *)

Lemma on_cells_added_NoDup (added : list nat) (cells : gmap nat mxCell)
    (movingBalls : list nat) :
  NoDup movingBalls → NoDup added → (∀ c, c ∈ added → c ∉ movingBalls) →
  NoDup (on_cells_added added cells movingBalls).2.
Proof.
  intros Hm Ha Hfresh. simpl. apply NoDup_app. naive_solver.
Qed.

Lemma on_selection_change_returns (removed added : option (list nat))
    (movingBalls : list nat) :
  on_selection_change removed added movingBalls =
    Some (match removed with
          | Some r => Array_filter (λ c, negb (bool_decide (c ∈ r))) movingBalls
          | None => movingBalls
          end ++ default [] added).
Proof.
  unfold on_selection_change.
  destruct removed as [r|]; [rewrite filterInPlace_returns|];
    destruct added; simpl; by rewrite ?app_nil_r.
Qed.

Lemma on_selection_change_NoDup (removed added : option (list nat))
    (movingBalls movingBalls' : list nat) :
  on_selection_change removed added movingBalls = Some movingBalls' →
  NoDup movingBalls → NoDup (default [] added) →
  (∀ c, c ∈ default [] added → c ∉ movingBalls) →
  NoDup movingBalls'.
Proof.
  rewrite on_selection_change_returns. intros [= <-] Hm Ha Hfresh.
  apply NoDup_app. split; [|split; [|done]].
  - destruct removed; [by apply NoDup_Array_filter|done].
  - intros c Hc Hc'. apply (Hfresh c Hc').
    destruct removed; [|done]. by apply elem_of_Array_filter in Hc as [? _].
Qed.

(** *** One tick *)

Lemma neg_abs_sign (v : Q) : - Math_abs v = v ∨ - Math_abs v = - v.
Proof.
  destruct v as [n d]. unfold Math_abs, Qabs, Qopp; simpl.
  destruct (Z.abs_eq_or_opp n) as [->| ->]; [by right|left].
  by rewrite Z.opp_involutive.
Qed.

Lemma abs_sign (v : Q) : Math_abs v = v ∨ Math_abs v = - v.
Proof.
  destruct v as [n d]. unfold Math_abs, Qabs, Qopp; simpl.
  destruct (Z.abs_eq_or_opp n) as [->| ->]; [by left|by right].
Qed.

Lemma bounce_geometry (c : mxCell) : geometry (bounce c) = geometry c.
Proof. unfold bounce. repeat case_match; done. Qed.

Lemma bounce_abs_vx (c : mxCell) : Math_abs (vx (bounce c)) = Math_abs (vx c).
Proof.
  unfold bounce, set_vx, set_vy. repeat case_match; cbn [vx vy geometry];
    rewrite ?Math_abs_abs, ?Math_abs_neg_abs; done.
Qed.

Lemma bounce_abs_vy (c : mxCell) : Math_abs (vy (bounce c)) = Math_abs (vy c).
Proof.
  unfold bounce, set_vx, set_vy. repeat case_match; cbn [vx vy geometry];
    rewrite ?Math_abs_abs, ?Math_abs_neg_abs; done.
Qed.

Lemma bounce_sign_vx (c : mxCell) :
  vx (bounce c) = vx c ∨ vx (bounce c) = - vx c.
Proof.
  unfold bounce, set_vx, set_vy. repeat case_match; cbn [vx vy geometry];
    auto using abs_sign, neg_abs_sign.
  all: rewrite Math_abs_neg_abs; auto using abs_sign.
Qed.

Lemma bounce_sign_vy (c : mxCell) :
  vy (bounce c) = vy c ∨ vy (bounce c) = - vy c.
Proof.
  unfold bounce, set_vx, set_vy. repeat case_match; cbn [vx vy geometry];
    auto using abs_sign, neg_abs_sign.
  all: rewrite Math_abs_neg_abs; auto using abs_sign.
Qed.

Lemma bounce_no_contact (c : mxCell) : no_contact c = true → bounce c = c.
Proof.
  unfold no_contact, bounce. intros H.
  repeat (apply andb_prop in H as [H ?]).
  repeat match goal with
         | H : negb ?b = true |- _ => apply negb_true_iff in H; rewrite H
         end.
  done.
Qed.

Lemma animate_animated (c : mxCell) : animated c (animate c).
Proof.
  unfold animate, step.
  split; cbn [vx vy geometry x y width height]; rewrite ?bounce_geometry;
    auto using bounce_abs_vx, bounce_abs_vy, bounce_sign_vx, bounce_sign_vy.
  intros H. by rewrite (bounce_no_contact _ H).
Qed.

Lemma tick_cons (cells : gmap nat mxCell) (c : nat) (l : list nat) :
  tick cells (c :: l) = tick (alter animate c cells) l.
Proof. done. Qed.

(** A cell that is not listed is not touched. *)
Lemma tick_not_listed (l : list nat) (cells : gmap nat mxCell) (c : nat) :
  c ∉ l → tick cells l !! c = cells !! c.
Proof.
  revert cells. induction l as [|d l IH]; intros cells Hc; [done|].
  apply not_elem_of_cons in Hc as [Hne Hc].
  rewrite tick_cons, IH by done. by apply lookup_alter_ne.
Qed.

(** A cell listed once is visited once. *)
Lemma tick_listed_once (l : list nat) (cells : gmap nat mxCell) (c : nat) :
  NoDup l → c ∈ l → tick cells l !! c = animate <$> cells !! c.
Proof.
  revert cells. induction l as [|d l IH]; intros cells Hnd Hc.
  - by apply elem_of_nil in Hc.
  - apply NoDup_cons in Hnd as [Hd Hnd]. rewrite tick_cons.
    destruct (decide (c = d)) as [->|Hne].
    + rewrite tick_not_listed by done. apply lookup_alter_eq.
    + apply elem_of_cons in Hc as [?|Hc]; [done|].
      rewrite IH by done. by rewrite lookup_alter_ne.
Qed.



(** A cell that [movingBalls] lists twice is visited twice: ball 1 of
    the example moves by two steps in one tick. *)
Lemma tick_listed_twice :
  tick two_balls [1%nat; 1%nat] !! 1%nat = Some (animate (animate ball_a)) ∧
  x (geometry (animate (animate ball_a))) = 102%Q.
Proof. split; by vm_compute. Qed.

(* --------------------------------------------------------------------- *)
(** ** Further properties of the demo *)
(* --------------------------------------------------------------------- *)

Section FilterInPlaceMore.
Context {A : Type}.

Lemma Array_filter_compose (c1 c2 : A → bool) (l : list A) :
  Array_filter c2 (Array_filter c1 l) = Array_filter (λ e, c1 e && c2 e) l.
Proof.
  induction l as [|e l IH]; simpl; [done|].
  destruct (c1 e); simpl; [|done]. destruct (c2 e); by rewrite IH.
Qed.

Lemma Array_filter_sublist (cond : A → bool) (l : list A) :
  sublist (Array_filter cond l) l.
Proof.
  induction l as [|e l IH]; simpl; [constructor|].
  destruct (cond e); by constructor.
Qed.

Lemma Array_filter_all (cond : A → bool) (l : list A) :
  length (Array_filter cond l) = length l → Array_filter cond l = l.
Proof.
  induction l as [|e l IH]; simpl; [done|].
  pose proof (sublist_length _ _ (Array_filter_sublist cond l)) as Hle.
  destruct (cond e); simpl; intros Hlen; [|lia].
  f_equal. apply IH. lia.
Qed.

End FilterInPlaceMore.

(** X1. Filtering twice in place is filtering once with both
    conditions; in particular a second pass with the same condition
    changes nothing. *)
Theorem filterInPlace_twice {A : Type} (c1 c2 : A → bool) (a : list A) :
  filterInPlace c1 a ≫= filterInPlace c2 = filterInPlace (λ e, c1 e && c2 e) a ∧
  filterInPlace c1 a ≫= filterInPlace c1 = filterInPlace c1 a.
Proof.
  rewrite !filterInPlace_returns. cbn. rewrite !filterInPlace_returns.
  split; f_equal.
  - apply Array_filter_compose.
  - rewrite Array_filter_compose. clear.
    induction a as [|e a IH]; simpl; [done|].
    destruct (c1 e); simpl; by rewrite IH.
Qed.

(** X2. [filterInPlace] returns; what is left is a subsequence of
    the array, no longer than it, and the array itself when nothing was
    dropped. *)
Theorem filterInPlace_shrinks {A : Type} (cond : A → bool) (a : list A) :
  ∃ a', filterInPlace cond a = Some a' ∧
        sublist a' a ∧ length a' ≤ length a ∧
        (length a' = length a → a' = a) ∧
        (a = [] → a' = []).
Proof.
  exists (Array_filter cond a). split; [apply filterInPlace_returns|].
  pose proof (Array_filter_sublist cond a) as Hs.
  split; [done|]. split; [by apply sublist_length|].
  split; [apply Array_filter_all|]. by intros ->.
Qed.

(** *** The listeners *)

(** X3. After a selection change [movingBalls] holds what it held,
    less the cells of [removed], and then the cells of [added]: a cell
    is in it exactly when it was moving and is not removed, or is
    added. *)
Theorem on_selection_change_members (removed added : option (list nat))
    (movingBalls : list nat) :
  ∃ movingBalls',
    on_selection_change removed added movingBalls = Some movingBalls' ∧
    (∀ c, c ∈ movingBalls' ↔
          (c ∈ movingBalls ∧ c ∉ default [] removed) ∨ c ∈ default [] added) ∧
    (removed = None → movingBalls' = movingBalls ++ default [] added).
Proof.
  rewrite on_selection_change_returns. eexists. split; [done|]. split.
  - intros c. rewrite elem_of_app. destruct removed as [r|]; simpl.
    + rewrite elem_of_Array_filter, negb_true_iff, bool_decide_eq_false. done.
    + split; [intros [?|?]; [left; split; [done|apply not_elem_of_nil]|by right]
             |intros [[? _]|?]; [by left|by right]].
  - by intros ->.
Qed.

(** X4. As long as the toolkit announces (as added to the diagram, or
    in the [added] of a selection change) only cells that are not
    moving, each once, [movingBalls] lists no cell twice. *)
Theorem listeners_keep_NoDup (news : list nat) (cells : gmap nat mxCell)
    (movingBalls : list nat) :
  NoDup movingBalls → NoDup news → (∀ c, c ∈ news → c ∉ movingBalls) →
  NoDup (on_cells_added news cells movingBalls).2 ∧
  ∀ removed, ∃ movingBalls',
    on_selection_change removed (Some news) movingBalls = Some movingBalls' ∧
    NoDup movingBalls'.
Proof.
  intros Hm Hn Hfresh. split; [by apply on_cells_added_NoDup|].
  intros removed.
  destruct (on_selection_change removed (Some news) movingBalls)
    as [movingBalls'|] eqn:Hsel.
  - exists movingBalls'. split; [done|].
    by apply (on_selection_change_NoDup removed (Some news) movingBalls).
  - by rewrite on_selection_change_returns in Hsel.
Qed.

Lemma listeners_keep_NoDup_witness :
  NoDup [1%nat; 2%nat] ∧ NoDup [3%nat] ∧
  (∀ c, c ∈ [3%nat] → c ∉ [1%nat; 2%nat]) ∧
  NoDup (on_cells_added [3%nat] two_balls [1%nat; 2%nat]).2 ∧
  ∀ removed, ∃ movingBalls',
    on_selection_change removed (Some [3%nat]) [1%nat; 2%nat] = Some movingBalls' ∧
    NoDup movingBalls'.
Proof.
  assert (NoDup [1%nat; 2%nat]) as Hm by (apply (bool_decide_unpack _); reflexivity).
  assert (NoDup [3%nat]) as Hn by (apply (bool_decide_unpack _); reflexivity).
  assert (∀ c, c ∈ [3%nat] → c ∉ [1%nat; 2%nat]) as Hfresh.
  { intros c Hc. apply list_elem_of_singleton in Hc as ->.
    apply (bool_decide_unpack _). reflexivity. }
  split; [exact Hm|]. split; [exact Hn|]. split; [exact Hfresh|].
  exact (listeners_keep_NoDup [3%nat] two_balls [1%nat; 2%nat] Hm Hn Hfresh).
Defined.

Lemma on_cells_added_lookup (added : list nat) (cells : gmap nat mxCell)
    (c : nat) (b : mxCell) :
  cells !! c = Some b →
  ∃ b', foldl (λ cells c, alter (λ b, set_vy 1 (set_vx 1 b)) c cells) cells added
          !! c = Some b' ∧
        geometry b' = geometry b ∧
        (c ∈ added → vx b' = 1%Q ∧ vy b' = 1%Q) ∧
        (c ∉ added → b' = b).
Proof.
  revert cells b. induction added as [|d added IH]; intros cells b Hb; simpl.
  - exists b. split; [done|]. split; [done|].
    split; [by intros ?%elem_of_nil|done].
  - destruct (decide (c = d)) as [->|Hne].
    + destruct (IH (alter (λ b, set_vy 1 (set_vx 1 b)) d cells)
                   (set_vy 1 (set_vx 1 b))) as (b' & Hb' & Hg & Hin & Hout).
      { by rewrite lookup_alter_eq, Hb. }
      exists b'. split; [done|]. split; [done|]. split.
      * intros _. destruct (decide (d ∈ added)) as [?|Hd]; [by apply Hin|].
        by rewrite (Hout Hd).
      * intros Hd. apply not_elem_of_cons in Hd as [? _]. done.
    + destruct (IH (alter (λ b, set_vy 1 (set_vx 1 b)) d cells) b)
        as (b' & Hb' & Hg & Hin & Hout).
      { by rewrite lookup_alter_ne. }
      exists b'. split; [done|]. split; [done|]. split.
      * intros [?|?]%elem_of_cons; [done|by apply Hin].
      * intros [_ ?]%not_elem_of_cons. by apply Hout.
Qed.

(** X5. [CELLS_ADDED] appends the new cells to [movingBalls] and gives
    each of them the velocity (1, 1), also one that had another
    velocity; the geometry is left alone, and so are all other
    cells. *)
Theorem on_cells_added_sets_velocity (added : list nat)
    (cells : gmap nat mxCell) (movingBalls : list nat) :
  (on_cells_added added cells movingBalls).2 = movingBalls ++ added ∧
  dom (on_cells_added added cells movingBalls).1 = dom cells ∧
  ∀ c b, cells !! c = Some b →
    ∃ b', (on_cells_added added cells movingBalls).1 !! c = Some b' ∧
          geometry b' = geometry b ∧
          (c ∈ added → vx b' = 1%Q ∧ vy b' = 1%Q) ∧
          (c ∉ added → b' = b).
Proof.
  split; [done|]. split.
  - unfold on_cells_added; simpl. revert cells.
    induction added as [|d added IH]; intros cells; simpl; [done|].
    by rewrite IH, dom_alter_L.
  - intros c b Hb. by apply on_cells_added_lookup.
Qed.

(** *** One tick, and many *)

Lemma Qle_bool_false (a b : Q) : Qle_bool a b = false → (b < a)%Q.
Proof.
  intros H. apply Qnot_le_lt. intros Hle. apply Qle_bool_iff in Hle. congruence.
Qed.

Lemma bounce_vx (c : mxCell) :
  vx (bounce c) =
    turned (x (geometry c)) (width (geometry c)) canvas_size_w (vx c).
Proof.
  unfold bounce, turned, set_vx, set_vy.
  repeat case_match; cbn [vx vy geometry]; rewrite ?Math_abs_neg_abs; done.
Qed.

Lemma bounce_vy (c : mxCell) :
  vy (bounce c) =
    turned (y (geometry c)) (height (geometry c)) canvas_size_h (vy c).
Proof.
  unfold bounce, turned, set_vx, set_vy.
  repeat case_match; cbn [vx vy geometry]; rewrite ?Math_abs_neg_abs; done.
Qed.

Lemma turned_cases (pos extent limit v : Q) :
  ((pos <= 0)%Q → turned pos extent limit v = Math_abs v) ∧
  ((0 < pos)%Q → (limit <= pos + extent)%Q →
   turned pos extent limit v = (- Math_abs v)%Q) ∧
  ((0 < pos)%Q → (pos + extent < limit)%Q → turned pos extent limit v = v).
Proof.
  unfold turned, leb, geb.
  destruct (Qle_bool pos 0) eqn:H0.
  - apply Qle_bool_iff in H0.
    split; [done|]. split; intros; lra.
  - apply Qle_bool_false in H0. split; [intros; lra|].
    destruct (Qle_bool limit (pos + extent)) eqn:H1.
    + apply Qle_bool_iff in H1. split; [done|intros; lra].
    + apply Qle_bool_false in H1. split; [intros; lra|done].
Qed.

(** X6. Which way a ball goes after a tick.  At or beyond the left
    wall it goes right, also when it reaches over the right wall as
    well; otherwise, at or beyond the right wall it goes left;
    otherwise it goes on as before.  Likewise for the top and bottom
    walls. *)
Theorem tick_turns_back
    (cells : gmap nat mxCell) (movingBalls : list nat) (id : nat) (c : mxCell) :
  NoDup movingBalls → id ∈ movingBalls → cells !! id = Some c →
  ∃ c', tick cells movingBalls !! id = Some c' ∧
    let geom := geometry c in
    ((x geom <= 0)%Q → vx c' = Math_abs (vx c)) ∧
    ((0 < x geom)%Q → (canvas_size_w <= x geom + width geom)%Q →
     vx c' = (- Math_abs (vx c))%Q) ∧
    ((0 < x geom)%Q → (x geom + width geom < canvas_size_w)%Q → vx c' = vx c) ∧
    ((y geom <= 0)%Q → vy c' = Math_abs (vy c)) ∧
    ((0 < y geom)%Q → (canvas_size_h <= y geom + height geom)%Q →
     vy c' = (- Math_abs (vy c))%Q) ∧
    ((0 < y geom)%Q → (y geom + height geom < canvas_size_h)%Q → vy c' = vy c).
Proof.
  intros Hnd Hin Hc. exists (animate c). split.
  - by rewrite tick_listed_once, Hc.
  - unfold animate, step. cbn [vx vy]. rewrite bounce_vx, bounce_vy.
    destruct (turned_cases (x (geometry c)) (width (geometry c))
                canvas_size_w (vx c)) as (? & ? & ?).
    destruct (turned_cases (y (geometry c)) (height (geometry c))
                canvas_size_h (vy c)) as (? & ? & ?).
    cbn zeta. repeat split; done.
Qed.

Lemma tick_turns_back_witness :
  NoDup [3%nat] ∧ 3%nat ∈ [3%nat] ∧
  (<[3%nat := ball_wide]> two_balls) !! 3%nat = Some ball_wide ∧
  ∃ c', tick (<[3%nat := ball_wide]> two_balls) [3%nat] !! 3%nat = Some c' ∧
        vx c' = 3%Q.
Proof.
  assert (NoDup [3%nat]) as Hnd by (apply (bool_decide_unpack _); reflexivity).
  assert (3%nat ∈ [3%nat]) as Hin by (apply (bool_decide_unpack _); reflexivity).
  assert ((<[3%nat := ball_wide]> two_balls) !! 3%nat = Some ball_wide) as Hc
    by reflexivity.
  split; [exact Hnd|]. split; [exact Hin|]. split; [exact Hc|].
  destruct (tick_turns_back (<[3%nat := ball_wide]> two_balls) [3%nat] 3%nat
              ball_wide Hnd Hin Hc) as (c' & Hc' & Hleft & _).
  exists c'. split; [exact Hc'|].
  rewrite Hleft; [reflexivity|]. cbn. lra.
Defined.

(** X7. A tick moves the listed balls only: it neither makes nor
    removes a cell, and a cell that is not in [movingBalls] (a selected
    ball) is as before. *)
Theorem tick_moves_only_listed
    (cells : gmap nat mxCell) (movingBalls : list nat) :
  dom (tick cells movingBalls) = dom cells ∧
  ∀ c, c ∉ movingBalls → tick cells movingBalls !! c = cells !! c.
Proof.
  split; [|intros c Hc; by apply tick_not_listed].
  revert cells. induction movingBalls as [|d l IH]; intros cells; [done|].
  by rewrite tick_cons, IH, dom_alter_L.
Qed.

Lemma Math_abs_bounds (v : Q) :
  (0 <= Math_abs v)%Q ∧ (v <= Math_abs v)%Q ∧ (- Math_abs v <= v)%Q.
Proof.
  unfold Math_abs. split; [apply Qabs_nonneg|]. split; [apply Qle_Qabs|].
  pose proof (Qle_Qabs (- v)) as H. rewrite Qabs_opp in H. lra.
Qed.

Lemma turned_near (pos extent limit v : Q) :
  (extent <= limit)%Q →
  (- Math_abs v <= pos)%Q → (pos + extent <= limit + Math_abs v)%Q →
  (- Math_abs v <= pos + turned pos extent limit v)%Q ∧
  (pos + turned pos extent limit v + extent <= limit + Math_abs v)%Q.
Proof.
  intros He Hl Hr.
  destruct (Math_abs_bounds v) as (H0 & H1 & H2).
  destruct (turned_cases pos extent limit v) as (Ha & Hb & Hc).
  destruct (Qlt_le_dec 0 pos) as [Hpos|Hpos].
  - destruct (Qlt_le_dec (pos + extent) limit) as [Hin|Hout].
    + rewrite Hc by done. lra.
    + rewrite Hb by done. lra.
  - rewrite Ha by done. lra.
Qed.

Lemma animate_near_canvas (c : mxCell) :
  (width (geometry c) <= canvas_size_w)%Q →
  (height (geometry c) <= canvas_size_h)%Q →
  near_canvas c → near_canvas (animate c).
Proof.
  intros Hw Hh (Hx1 & Hx2 & Hy1 & Hy2).
  unfold near_canvas, animate, step. cbn [geometry vx vy x y width height].
  rewrite bounce_geometry, bounce_abs_vx, bounce_abs_vy, bounce_vx, bounce_vy.
  destruct (turned_near _ _ _ _ Hw Hx1 Hx2).
  destruct (turned_near _ _ _ _ Hh Hy1 Hy2).
  done.
Qed.

(** X8. A ball that fits in the canvas and is inside it, or outside
    by no more than one step, stays so for ever: after any number of
    ticks it is within one step of the canvas, with the speed and the
    size it had. *)
Theorem ticks_stay_near_canvas
    (cells : gmap nat mxCell) (movingBalls : list nat) (id : nat) (c : mxCell)
    (n : nat) :
  NoDup movingBalls → id ∈ movingBalls → cells !! id = Some c →
  (width (geometry c) <= canvas_size_w)%Q →
  (height (geometry c) <= canvas_size_h)%Q →
  near_canvas c →
  ∃ c', ticks n cells movingBalls !! id = Some c' ∧
        near_canvas c' ∧
        Math_abs (vx c') = Math_abs (vx c) ∧ Math_abs (vy c') = Math_abs (vy c) ∧
        width (geometry c') = width (geometry c) ∧
        height (geometry c') = height (geometry c).
Proof.
  intros Hnd Hin Hc Hw Hh Hnear.
  induction n as [|n (c' & Hc' & Hnear' & Hvx & Hvy & Hwd & Hht)].
  - exists c. split; [done|]. split; [done|]. by repeat split.
  - exists (animate c'). split.
    { unfold ticks in *. simpl. by rewrite tick_listed_once, Hc'. }
    destruct (animate_animated c') as [Hsx Hsy _ _ _ _ _ Hgw Hgh].
    split; [apply animate_near_canvas; [by rewrite Hwd|by rewrite Hht|done]|].
    by rewrite Hsx, Hsy, Hgw, Hgh.
Qed.

Lemma ticks_stay_near_canvas_witness :
  NoDup [1%nat; 2%nat] ∧ 2%nat ∈ [1%nat; 2%nat] ∧
  two_balls !! 2%nat = Some ball_b ∧
  (width (geometry ball_b) <= canvas_size_w)%Q ∧
  (height (geometry ball_b) <= canvas_size_h)%Q ∧
  near_canvas ball_b ∧
  ∃ c', ticks 1000 two_balls [1%nat; 2%nat] !! 2%nat = Some c' ∧ near_canvas c'.
Proof.
  assert (NoDup [1%nat; 2%nat]) as Hnd by (apply (bool_decide_unpack _); reflexivity).
  assert (2%nat ∈ [1%nat; 2%nat]) as Hin by (apply (bool_decide_unpack _); reflexivity).
  assert (two_balls !! 2%nat = Some ball_b) as Hc by reflexivity.
  assert (width (geometry ball_b) <= canvas_size_w)%Q as Hw by (by vm_compute).
  assert (height (geometry ball_b) <= canvas_size_h)%Q as Hh by (by vm_compute).
  assert (near_canvas ball_b) as Hnear by (repeat split; by vm_compute).
  split; [exact Hnd|]. split; [exact Hin|]. split; [exact Hc|].
  split; [exact Hw|]. split; [exact Hh|]. split; [exact Hnear|].
  destruct (ticks_stay_near_canvas two_balls [1%nat; 2%nat] 2%nat ball_b 1000
              Hnd Hin Hc Hw Hh Hnear) as (c' & Hc' & Hn' & _).
  by exists c'.
Defined.

(** *** The click listener *)

(** X9. A click makes a ball only when the event is not consumed and
    comes from the left button; the ball is 40 by 40 with its centre
    where the click was; and the event is consumed by it, so that the
    listener makes nothing of the same event again. *)
Theorem on_click_makes_one_ball (evt : mxEventObject) :
  match on_click evt with
  | (evt', Some geom) =>
      consumed evt = false ∧ button (event evt) = 0%Z ∧
      consumed evt' = true ∧ event evt' = event evt ∧
      (x geom + width geom / 2 == offsetX (event evt))%Q ∧
      (y geom + height geom / 2 == offsetY (event evt))%Q ∧
      (width geom == 40)%Q ∧ (height geom == 40)%Q ∧
      on_click evt' = (evt', None)
  | (evt', None) =>
      evt' = evt ∧ (consumed evt = true ∨ button (event evt) ≠ 0%Z)
  end.
Proof.
  unfold on_click. destruct (consumed evt) eqn:Hc; cbn.
  - split; [done|by left].
  - destruct (Z.eqb_spec (button (event evt)) 0) as [Hb|Hb]; cbn.
    + repeat split; try done; unfold radius; try field; by vm_compute.
    + split; [done|by right].
Qed.

End BouncingBallsProofs.

(* --------------------------------------------------------------------- *)
(** ** mxCellEditor.js *)
(* --------------------------------------------------------------------- *)

Module CellEditorProofs.
Import JsNum CellEditor.

(** *** Proof machinery *)

(** The monadic vocabulary, unfolded; [getEditorBounds] stays folded,
    and is dealt with by the lemmas below. *)
Ltac unfold_M :=
  unfold call, with_textarea, startEditing, resize, stopEditing, destroy, init,
    on_keydown, on_change, on_blur, focusLost, graph_stopEditing,
    changeHandler_fn, getCurrentValue,
    getEmptyLabelText, createTextDiv, isModified, setModified, isHideLabel,
    getInitialValue,
    the_textarea, graph_labelChanged, set_visibility, model_addListener,
    model_removeListener, update, get, throw,
    mbind, M_bind, mret, M_ret in *.

Ltac split_world w :=
  let e := fresh "e" in
  destruct w as [e ? ? ?]; destruct e; cbn in *.

(** [getMinimumSize] and [getEditorBounds] only read the state, and
    throw exactly when there is no textarea. *)
Lemma getEditorBounds_TypeError graph st w w' :
  getEditorBounds graph st w = TypeError w' → w' = w ∧ textarea (this w) = None.
Proof.
  unfold getEditorBounds, getMinimumSize, the_textarea, mbind, M_bind, mret, M_ret.
  destruct (textarea (this w)); [done|]. by intros [= <-].
Qed.

Lemma getEditorBounds_Ok graph st w r w' :
  getEditorBounds graph st w = Ok r w' → w' = w ∧ is_Some (textarea (this w)).
Proof.
  unfold getEditorBounds, getMinimumSize, the_textarea, mbind, M_bind, mret, M_ret.
  destruct (textarea (this w)); [|done]. intros [= _ <-]. eauto.
Qed.

(** Symbolic execution: split on the innermost scrutinee of the goal. *)
Ltac case_inner :=
  match goal with
  | |- context [match ?x with _ => _ end] =>
      lazymatch x with
      | context [match _ with _ => _ end] => fail
      | _ => destruct x eqn:?
      end
  end.

Ltac step_M :=
  case_inner;
  try match goal with
      | H : getEditorBounds _ _ _ = Ok _ _ |- _ =>
          apply getEditorBounds_Ok in H as [-> ?]
      | H : getEditorBounds _ _ _ = TypeError _ |- _ =>
          apply getEditorBounds_TypeError in H as [-> ?]
      end;
  cbn in *; simplify_eq.

(** Routine facts about [is_Some] in the hypotheses of an invariant. *)
Ltac use_hyps :=
  repeat match goal with
         | |- _ ↔ _ => split
         | |- _ → _ => intro
         | H : is_Some None |- _ => by destruct H
         | H : is_Some (Some _) → _ |- _ => specialize (H ltac:(by eexists))
         | H : ?a = ?a → _ |- _ => specialize (H eq_refl)
         | H : ?a ≠ ?a |- _ => by destruct H
         | H : is_Some ?o → is_Some None |- _ =>
             is_var o; destruct o; [|clear H]
         | H : _ ∧ _ |- _ => destruct H
         | H : _ ↔ _ |- _ => destruct H
         end.

Ltac solve_Inv :=
  split;
  unfold ta_set_value, ta_set_textAlign, ta_set_display, ta_set_parentNode in *;
  cbn in *; simplify_eq; use_hyps;
  simplify_eq; cbn in *; eauto; try done; try congruence.

(** *** Weakest preconditions *)

Lemma wp_bind {A B} (m : M A) (f : A → M B) Q R w :
  wp m (λ a, wp (f a) Q R) R w → wp (m ≫= f) Q R w.
Proof. unfold wp, mbind, M_bind. by destruct (m w). Qed.

Lemma wp_mono {A} (m : M A) (Q Q' : A → World → Prop) (R R' : World → Prop) w :
  wp m Q R w → (∀ a w', Q a w' → Q' a w') → (∀ w', R w' → R' w') →
  wp m Q' R' w.
Proof. unfold wp. destruct (m w); eauto. Qed.

(** Sequencing through an intermediate assertion. *)
Lemma wp_seq {A B} (m : M A) (f : A → M B) (I : A → World → Prop) Q R w :
  wp m I R w → (∀ a w', I a w' → wp (f a) Q R w') → wp (m ≫= f) Q R w.
Proof. intros Hm Hf. apply wp_bind. eapply wp_mono; eauto. Qed.

Lemma wp_world_of {A} (m : M A) (P : World → Prop) w :
  wp m (λ _, P) P w ↔ P (world_of (m w)).
Proof. unfold wp, world_of. by destruct (m w). Qed.

Lemma wp_get {A} (k : mxCellEditor → M A) Q R w :
  wp (k (this w)) Q R w → wp (get ≫= k) Q R w.
Proof. done. Qed.

(** *** The invariant holds of every reachable state *)

Lemma Inv_new : Inv new_World.
Proof.
  split; cbn; try done; by intros [? ?].
Qed.

Lemma stopEditing_Inv cancel w : Inv w → Inv (world_of (stopEditing cancel w)).
Proof.
  intros [H1 H2 H3 H4 H5 H6]. apply wp_world_of.
  split_world w. unfold wp. unfold_M. cbn.
  repeat step_M; solve_Inv.
Qed.

Lemma resize_Inv graph w : Inv w → Inv (world_of (resize graph w)).
Proof.
  intros [H1 H2 H3 H4 H5 H6]. apply wp_world_of.
  split_world w. unfold wp. unfold_M. cbn.
  repeat step_M; solve_Inv.
Qed.

Lemma destroy_Inv w : Inv w → Inv (world_of (destroy w)).
Proof.
  intros [H1 H2 H3 H4 H5 H6]. apply wp_world_of.
  split_world w. unfold wp. unfold_M. cbn.
  repeat step_M; solve_Inv.
Qed.

Lemma wp_lazy_init w :
  Inv w →
  wp (match textarea (this w) with None => init | Some _ => mret tt end)
     (λ _, Initialised) Inv w.
Proof.
  intros [H1 H2 H3 H4 H5 H6]. split_world w. unfold wp. unfold_M. cbn.
  repeat step_M; solve_Inv.
Qed.

Lemma wp_stopEditing_Initialised cancel w :
  Initialised w → wp (stopEditing cancel) (λ _, Idle) Inv w.
Proof.
  intros [H1 H2 H3 H4 H5]. split_world w. unfold wp. unfold_M. cbn.
  repeat step_M; solve_Inv.
Qed.

Lemma startEditing_Inv graph c evt w :
  Inv w → Inv (world_of (startEditing graph c evt w)).
Proof.
  intros HI. apply wp_world_of. unfold startEditing.
  apply wp_get.
  apply wp_seq with (I := λ _, Initialised); [by apply wp_lazy_init|].
  intros _ w1 Hw1.
  apply wp_seq with (I := λ _, Idle); [by apply wp_stopEditing_Initialised|].
  clear. intros _ w [H1 H2 H3 H4 H5].
  split_world w. unfold wp. unfold_M. cbn.
  repeat step_M; solve_Inv.
Qed.

Lemma call_Inv graph op w : Inv w → Inv (exec graph op w).
Proof.
  intros HI. unfold exec. destruct op.
  - by apply startEditing_Inv.
  - by apply stopEditing_Inv.
  - by apply resize_Inv.
  - by apply destroy_Inv.
  - destruct HI. by split_world w.
  - destruct HI. by split_world w.
  - destruct HI as [H1 H2 H3 H4 H5 H6]. apply wp_world_of.
    split_world w. unfold wp. unfold_M. cbn. repeat step_M; solve_Inv.
  - destruct HI as [H1 H2 H3 H4 H5 H6]. apply wp_world_of.
    split_world w. unfold wp. unfold_M. cbn. repeat step_M; solve_Inv.
  - (* a key: the listener stops the session or marks it modified *)
    unfold call, with_textarea. apply wp_world_of, wp_get.
    destruct (textarea (this w)) eqn:Hta; [|done].
    apply wp_world_of. unfold on_keydown, graph_stopEditing.
    repeat case_match; try by apply stopEditing_Inv.
    + clear -HI Hta. destruct HI as [H1 H2 H3 H4 H5 H6]. apply wp_world_of.
      split_world w. unfold wp. unfold_M. cbn. repeat step_M; solve_Inv.
    + done.
  - destruct HI as [H1 H2 H3 H4 H5 H6]. apply wp_world_of.
    split_world w. unfold wp. unfold_M. cbn. repeat step_M; solve_Inv.
  - unfold call, with_textarea. apply wp_world_of, wp_get.
    destruct (textarea (this w)); [|done].
    apply wp_world_of. by apply stopEditing_Inv.
  - unfold call. apply wp_world_of, wp_get.
    destruct (changeHandler (this w)); [|done].
    unfold changeHandler_fn. apply wp_get.
    destruct (editingCell (this w)); [|done].
    destruct (getState graph c); [done|].
    apply wp_world_of. by apply stopEditing_Inv.
Qed.

Theorem run_Inv history w : Inv w → Inv (run history w).
Proof.
  revert w. induction history as [|[graph op] rest IH]; intros w HI; [done|].
  simpl. by apply IH, call_Inv.
Qed.

Theorem reachable_Inv w : reachable w → Inv w.
Proof. intros [history ->]. apply run_Inv, Inv_new. Qed.

(** *** Ending a session *)

Lemma stopEditing_active cancel c t w :
  Inv w → editingCell (this w) = Some c → textarea (this w) = Some t →
  stopEditing cancel w = Ok tt (stopped cancel c t w).
Proof.
  intros [H1 H2 H3 H4 H5 H6] Hc Ht. unfold stopped.
  split_world w. simplify_eq.
  specialize (H4 ltac:(by eexists) _ eq_refl).
  specialize (H3 ltac:(by eexists)).
  unfold_M. cbn.
  destruct textNode0; [done|..]; cbn;
    destruct (negb cancel && modified0); cbn;
    destruct textDiv0; cbn; by rewrite H4.
Qed.

Lemma stopEditing_idle cancel w :
  editingCell (this w) = None → stopEditing cancel w = Ok tt w.
Proof. intros Hc. unfold stopEditing, get, mbind, M_bind. by rewrite Hc. Qed.

Lemma resize_idle graph w :
  textDiv (this w) = None → resize graph w = Ok tt w.
Proof. intros Hd. unfold resize, get, mbind, M_bind. by rewrite Hd. Qed.

Lemma stopped_editingCell cancel c t w :
  editingCell (this (stopped cancel c t w)) = None.
Proof. split_world w. by destruct textNode0. Qed.

Lemma stopped_textarea cancel c t w :
  textarea (this (stopped cancel c t w)) = Some (ta_set_parentNode false t).
Proof. split_world w. by destruct textNode0. Qed.

Lemma stopped_emptyLabelText cancel c t w :
  emptyLabelText (this (stopped cancel c t w)) = emptyLabelText (this w).
Proof. split_world w. by destruct textNode0. Qed.


(** *** Starting a session *)

Lemma wp_lazy_init_intact w :
  Inv w → intact w →
  wp (match textarea (this w) with None => init | Some _ => mret tt end)
     (λ _ w1, Inv w1 ∧ is_Some (textarea (this w1)) ∧
              emptyLabelText (this w1) = emptyLabelText (this w) ∧
              labelChanged w1 = labelChanged w)
     (λ _, False) w.
Proof.
  intros [H1 H2 H3 H4 H5 H6] Hi. unfold intact in Hi.
  split_world w. unfold wp. unfold_M. cbn.
  repeat step_M; (split; [solve_Inv|]); eauto.
Qed.

Lemma Idle_stopped cancel c t w :
  Inv w → editingCell (this w) = Some c → textarea (this w) = Some t →
  Idle (stopped cancel c t w).
Proof.
  intros [H1 H2 H3 H4 H5 H6] Hc Ht. split_world w. simplify_eq.
  destruct H5 as [_ H5]. specialize (H5 ltac:(by eexists)). simplify_eq.
  by split; destruct textNode0; cbn.
Qed.

Lemma Inv_Idle w :
  Inv w → editingCell (this w) = None → is_Some (textarea (this w)) → Idle w.
Proof.
  intros [H1 H2 H3 H4 H5 H6] Hc Ht. apply H5 in Ht as Hh.
  rewrite Hh in H6. split; try done.
  destruct (textDiv (this w)); [|done]. rewrite Hc in H1. by destruct H1.
Qed.

Lemma wp_stopEditing_returns el L w :
  Inv w → is_Some (textarea (this w)) →
  emptyLabelText (this w) = el → labelChanged w = L →
  wp (stopEditing true)
     (λ _ w2, Idle w2 ∧ emptyLabelText (this w2) = el ∧ labelChanged w2 = L)
     (λ _, False) w.
Proof.
  intros HI [t Ht] Hel HL. unfold wp.
  destruct (editingCell (this w)) as [c|] eqn:Hc.
  - rewrite (stopEditing_active _ c t) by done.
    split; [by apply Idle_stopped|].
    by rewrite stopped_emptyLabelText.
  - rewrite stopEditing_idle by done. split; [|done].
    apply Inv_Idle; eauto.
Qed.

(** [startEditing] returns, on every intact reachable state, and never
    calls [labelChanged]. *)
Lemma wp_startEditing graph c evt w :
  Inv w → intact w →
  wp (startEditing graph c evt)
     (λ _ w', start_outcome graph c evt (emptyLabelText (this w)) w' ∧
              labelChanged w' = labelChanged w ∧
              is_Some (textarea (this w')))
     (λ _, False) w.
Proof.
  intros HI Hi. unfold startEditing. apply wp_get.
  eapply wp_seq; [by apply wp_lazy_init_intact|].
  intros _ w1 (HI1 & Ht1 & Hel1 & HL1). cbn beta.
  eapply wp_seq; [by apply wp_stopEditing_returns|].
  clear. intros _ w2 ([H1 H2 H3 H4 H5] & <- & <-).
  unfold start_outcome, label_is_empty, initial_text.
  split_world w2. simplify_eq. unfold wp. unfold_M. cbn.
  repeat step_M.
  all: try by destruct H3.
  all: split; [|by split; [|eexists]].
  all: split; cbn; try done.
  all: unfold initial_text, label_is_empty, getInitialValue.
  all: repeat match goal with
              | H : getEditingValue _ _ _ = _ |- _ => rewrite H
              | H : text _ = _ |- _ => rewrite H
              end.
  all: try done.
  all: try (eexists; split; [done|]; by cbn).
  all: intros; simplify_eq; set_solver.
Qed.

(** [startEditing] on a state with a session behaves as on the state
    [stopEditing(true)] has left. *)
Lemma startEditing_stops_first graph c evt e1 t w :
  Inv w → editingCell (this w) = Some e1 → textarea (this w) = Some t →
  startEditing graph c evt w = startEditing graph c evt (stopped true e1 t w).
Proof.
  intros HI Hc Ht. unfold startEditing.
  match goal with
  | |- context [stopEditing true ≫= ?k] => generalize k
  end.
  intros body. unfold mbind, M_bind, get.
  rewrite Ht, stopped_textarea. unfold mret, M_ret.
  rewrite (stopEditing_active true e1 t w) by done.
  by rewrite stopEditing_idle by apply stopped_editingCell.
Qed.

(** *** The editors of the examples *)

Lemma w_editing_reachable : reachable w_editing.
Proof. by eexists. Qed.

Lemma w_editing_cell : editingCell (this w_editing) = Some 1%nat.
Proof. by vm_compute. Qed.

Lemma w_editing_textarea : textarea (this w_editing) = Some ta_editing.
Proof. by vm_compute. Qed.

Lemma w_editing_modified : modified (this w_editing) = true.
Proof. by vm_compute. Qed.

(** *** The claims about ending a session *)



(** C7. With no session active, [stopEditing(cancel)] and [resize()]
    return without changing anything: the editor, the list of
    [labelChanged] calls, the hidden labels and the listeners are as
    before. *)
Theorem no_session_stopEditing_resize_noop
    (graph : mxGraph) (cancel : bool) (w : World) :
  reachable w → editingCell (this w) = None →
  stopEditing cancel w = Ok tt w ∧ resize graph w = Ok tt w.
Proof.
  intros Hr Hc. split; [by apply stopEditing_idle|].
  apply resize_idle. apply reachable_Inv in Hr as [H1 _ _ _ _ _].
  destruct (textDiv (this w)); [|done].
  rewrite Hc in H1. by destruct H1.
Qed.

Lemma no_session_stopEditing_resize_noop_witness :
  reachable new_World ∧ editingCell (this new_World) = None ∧
  stopEditing false new_World = Ok tt new_World ∧
  resize demo_graph new_World = Ok tt new_World.
Proof.
  assert (reachable new_World) as Hr by (by exists []).
  split; [exact Hr|]. split; [reflexivity|].
  exact (no_session_stopEditing_resize_noop demo_graph false new_World
           Hr eq_refl).
Defined.

(** C1, refuted: in the modified session on cell 1, [startEditing] of
    cell 2 calls [labelChanged] for nothing. *)
Lemma startEditing_commits_counterexample :
  reachable w_editing ∧ editingCell (this w_editing) = Some 1%nat ∧
  modified (this w_editing) = true ∧
  ¬ commits_pending_edit demo_graph 2%nat None w_editing.
Proof.
  split; [exact w_editing_reachable|].
  split; [exact w_editing_cell|].
  split; [exact w_editing_modified|].
  intros (e1 & v & t & _ & Hin).
  assert (labelChanged (exec demo_graph (StartEditing 2%nat None) w_editing) = [])
    as Hnil by (by vm_compute).
  rewrite Hnil in Hin. by apply elem_of_nil in Hin.
Qed.

(** C1, amended. [startEditing(e2, t2)] during a session on [e1] ends
    that session through [stopEditing(true)]: it goes on as from the
    state [stopEditing(true)] leaves, returns, and [labelChanged] is
    not called, modified or not; then the new session begins. *)
Theorem startEditing_cancels_old_session
    (graph : mxGraph) (e1 e2 : Cell) (t2 : option Trigger)
    (t : HTMLTextAreaElement) (w : World) :
  reachable w → editingCell (this w) = Some e1 → textarea (this w) = Some t →
  stopEditing true w = Ok tt (stopped true e1 t w) ∧
  startEditing graph e2 t2 w = startEditing graph e2 t2 (stopped true e1 t w) ∧
  ∃ w', startEditing graph e2 t2 w = Ok tt w' ∧
        labelChanged w' = labelChanged w ∧
        start_outcome graph e2 t2 (emptyLabelText (this w)) w'.
Proof.
  intros Hr Hc Ht. apply reachable_Inv in Hr as HI.
  split; [by apply stopEditing_active|].
  split; [by apply startEditing_stops_first|].
  assert (intact w) as Hi by (intros _; by eexists).
  pose proof (wp_startEditing graph e2 t2 w HI Hi) as Hwp. unfold wp in Hwp.
  destruct (startEditing graph e2 t2 w) as [[] w'|]; [|done].
  exists w'. by destruct Hwp as (? & ? & _).
Qed.

Lemma startEditing_cancels_old_session_witness :
  reachable w_editing ∧ editingCell (this w_editing) = Some 1%nat ∧
  textarea (this w_editing) = Some ta_editing ∧
  stopEditing true w_editing = Ok tt (stopped true 1%nat ta_editing w_editing) ∧
  startEditing demo_graph 2%nat None w_editing =
    startEditing demo_graph 2%nat None (stopped true 1%nat ta_editing w_editing) ∧
  ∃ w', startEditing demo_graph 2%nat None w_editing = Ok tt w' ∧
        labelChanged w' = labelChanged w_editing ∧
        start_outcome demo_graph 2%nat None (emptyLabelText (this w_editing)) w'.
Proof.
  split; [exact w_editing_reachable|].
  split; [exact w_editing_cell|].
  split; [exact w_editing_textarea|].
  exact (startEditing_cancels_old_session demo_graph 1%nat 2%nat None
           ta_editing w_editing
           w_editing_reachable w_editing_cell w_editing_textarea).
Defined.

(** *** The edited cell vanishes *)

(** C3, refuted for [resize()]: the cell of the session has no state
    any more, and [resize()] leaves the session as it is. *)
Lemma resize_cancels_counterexample :
  reachable w_fixed_size ∧ editingCell (this w_fixed_size) = Some 1%nat ∧
  getState gone_graph 1%nat = None ∧
  resize gone_graph w_fixed_size = Ok tt w_fixed_size ∧
  editingCell (this (exec gone_graph Resize w_fixed_size)) ≠ None.
Proof.
  split; [by eexists|]. split; [by vm_compute|]. split; [done|].
  split; by vm_compute.
Qed.

(** C3, amended. When the view has no state for the edited cell, the
    next change notification of the model, and the next [resize()] if
    the measuring [div] exists, do what [stopEditing(true)] does: the
    session ends, the label hidden for it is visible again, and
    [labelChanged] is not called. *)
Theorem vanished_cell_cancels_session
    (graph : mxGraph) (c : Cell) (t : HTMLTextAreaElement) (w : World) :
  reachable w → editingCell (this w) = Some c → textarea (this w) = Some t →
  getState graph c = None →
  let w' := stopped true c t w in
  call graph ModelChange w = Ok tt w' ∧
  (is_Some (textDiv (this w)) → resize graph w = Ok tt w') ∧
  stopEditing true w = Ok tt w' ∧
  editingCell (this w') = None ∧
  labelChanged w' = labelChanged w ∧
  (∀ n, textNode (this w) = TN_node n → n ∉ hidden w').
Proof.
  intros Hr Hc Ht Hg w'. apply reachable_Inv in Hr as HI.
  pose proof (stopEditing_active true c t w HI Hc Ht) as Hstop.
  split; [|split; [|split; [done|split; [|split; [done|]]]]].
  - destruct HI as [_ _ _ _ H5 _].
    destruct H5 as [_ H5]. specialize (H5 ltac:(by eexists)).
    unfold call, changeHandler_fn, get, mbind, M_bind.
    by rewrite H5, Hc, Hg.
  - intros [d Hd]. unfold resize, get, mbind, M_bind.
    rewrite Hd, Hc. cbn. by rewrite Hg.
  - apply stopped_editingCell.
  - intros n Hn. unfold w', stopped; cbn. rewrite Hn.
    apply not_elem_of_difference. right. by apply elem_of_singleton.
Qed.

(** The session of [w_editing] has hidden the label node 7 and made
    the measuring [div]. *)
Lemma vanished_cell_cancels_session_witness :
  reachable w_editing ∧ editingCell (this w_editing) = Some 1%nat ∧
  textarea (this w_editing) = Some ta_editing ∧
  getState gone_graph 1%nat = None ∧
  let w' := stopped true 1%nat ta_editing w_editing in
  call gone_graph ModelChange w_editing = Ok tt w' ∧
  (is_Some (textDiv (this w_editing)) → resize gone_graph w_editing = Ok tt w') ∧
  stopEditing true w_editing = Ok tt w' ∧
  editingCell (this w') = None ∧
  labelChanged w' = labelChanged w_editing ∧
  (∀ n, textNode (this w_editing) = TN_node n → n ∉ hidden w').
Proof.
  split; [exact w_editing_reachable|].
  split; [exact w_editing_cell|].
  split; [exact w_editing_textarea|].
  split; [reflexivity|].
  exact (vanished_cell_cancels_session gone_graph 1%nat ta_editing w_editing
           w_editing_reachable w_editing_cell w_editing_textarea eq_refl).
Defined.

(** *** The placeholder of an empty label *)

(** [stopEditing] and [resize] leave [clearOnChange] alone. *)
Lemma stopEditing_clearOnChange cancel w :
  clearOnChange (this (world_of (stopEditing cancel w))) = clearOnChange (this w).
Proof.
  apply (wp_world_of _ (λ w', clearOnChange (this w') = clearOnChange (this w))).
  split_world w. unfold wp. unfold_M. cbn. repeat step_M; done.
Qed.

Lemma resize_clearOnChange graph w :
  clearOnChange (this (world_of (resize graph w))) = clearOnChange (this w).
Proof.
  apply (wp_world_of _ (λ w', clearOnChange (this w') = clearOnChange (this w))).
  split_world w. unfold wp. unfold_M. cbn. repeat step_M; done.
Qed.

(** Only [startEditing] and a modifying keystroke write
    [clearOnChange]. *)
Lemma exec_clearOnChange_quiet graph op w :
  is_start (graph, op) = false → is_modifying (graph, op) = false →
  clearOnChange (this (exec graph op w)) = clearOnChange (this w).
Proof.
  intros Hs Hm. unfold exec. destruct op; try done.
  - apply stopEditing_clearOnChange.
  - apply resize_clearOnChange.
  - split_world w. unfold_M. cbn. by repeat step_M.
  - by split_world w.
  - by split_world w.
  - split_world w. unfold_M. cbn. by repeat step_M.
  - split_world w. unfold_M. cbn. by repeat step_M.
  - cbn in Hm. unfold modifying_keystroke in Hm.
    unfold call, with_textarea, get, mbind, M_bind.
    destruct (textarea (this w)); [|done].
    unfold on_keydown, graph_stopEditing.
    destruct (isConsumed evt); [done|].
    destruct (is_stop_key graph evt); [apply stopEditing_clearOnChange|].
    destruct (Nat.eqb (keyCode evt) 27); [apply stopEditing_clearOnChange|].
    done.
  - split_world w. unfold_M. cbn. by repeat step_M.
  - unfold call, with_textarea, get, mbind, M_bind.
    destruct (textarea (this w)); [|done]. apply stopEditing_clearOnChange.
  - unfold call, changeHandler_fn, get, mbind, M_bind.
    destruct (changeHandler (this w)); [|done].
    destruct (editingCell (this w)); [|done].
    destruct (getState graph c); [done|]. apply stopEditing_clearOnChange.
Qed.

(** The first modifying keystroke clears the placeholder. *)
Lemma exec_modifying_keystroke graph evt t w :
  modifying_keystroke graph evt = true → textarea (this w) = Some t →
  clearOnChange (this w) = Some true →
  clearOnChange (this (exec graph (Keydown evt) w)) = Some false ∧
  textarea (this (exec graph (Keydown evt) w)) = Some (ta_set_value "" t) ∧
  modified (this (exec graph (Keydown evt) w)) = true.
Proof.
  unfold modifying_keystroke. intros Hm Ht Hc.
  repeat (apply andb_prop in Hm as [Hm ?]).
  repeat match goal with
         | H : negb _ = true |- _ => apply negb_true_iff in H
         end.
  unfold exec, call, with_textarea, on_keydown. split_world w. simplify_eq.
  rewrite Hm. cbn. unfold_M. cbn.
  repeat match goal with H : _ = false |- _ => rewrite H end. by cbn.
Qed.

(** Once cleared, [clearOnChange] stays cleared for the rest of the
    session. *)
Lemma exec_clearOnChange_false graph op w :
  is_start (graph, op) = false → clearOnChange (this w) = Some false →
  clearOnChange (this (exec graph op w)) = Some false.
Proof.
  intros Hs Hc. destruct (is_modifying (graph, op)) eqn:Hm.
  - destruct op; try done. cbn in Hm. unfold modifying_keystroke in Hm.
    repeat (apply andb_prop in Hm as [Hm ?]).
    repeat match goal with
           | H : negb _ = true |- _ => apply negb_true_iff in H
           end.
    unfold exec, call, with_textarea, on_keydown. split_world w. simplify_eq.
    destruct textarea0; [|done]. rewrite Hm. cbn. unfold_M. cbn.
    repeat match goal with H : _ = false |- _ => rewrite H end. by cbn.
  - by rewrite exec_clearOnChange_quiet.
Qed.

Lemma run_quiet history w :
  quiet history = true →
  clearOnChange (this (run history w)) = clearOnChange (this w).
Proof.
  revert w. induction history as [|[g op] rest IH]; intros w Hq; [done|].
  cbn in Hq. apply andb_prop in Hq as [Hq Hrest].
  apply andb_prop in Hq as [Hs Hm]. apply negb_true_iff in Hs, Hm.
  cbn [run]. rewrite IH by done. by apply exec_clearOnChange_quiet.
Qed.

Lemma run_same_session_false history w :
  same_session history = true → clearOnChange (this w) = Some false →
  clearOnChange (this (run history w)) = Some false.
Proof.
  revert w. induction history as [|[g op] rest IH]; intros w Hq Hc; [done|].
  cbn in Hq. apply andb_prop in Hq as [Hs Hrest]. apply negb_true_iff in Hs.
  cbn [run]. apply IH; [done|]. by apply exec_clearOnChange_false.
Qed.

(** C6. [startEditing] on a cell whose label is empty returns with the
    placeholder as the text of the overlay and [clearOnChange] set.
    From then on [clearOnChange] stays set as long as no modifying
    keystroke arrives; the first one clears it, together with the text,
    and marks the session modified; and it stays cleared for the rest
    of the session. *)
Theorem placeholder_cleared_once
    (graph : mxGraph) (c : Cell) (evt : option Trigger) (state : mxCellState)
    (w : World) :
  reachable w → intact w →
  getState graph c = Some state → label_is_empty graph state evt = true →
  ∃ w1 t1,
    startEditing graph c evt w = Ok tt w1 ∧
    textarea (this w1) = Some t1 ∧ value t1 = emptyLabelText (this w) ∧
    clearOnChange (this w1) = Some true ∧
    (∀ before, quiet before = true →
       clearOnChange (this (run before w1)) = Some true) ∧
    (∀ before graph' key t after,
       quiet before = true → modifying_keystroke graph' key = true →
       textarea (this (run before w1)) = Some t →
       same_session after = true →
       let w2 := exec graph' (Keydown key) (run before w1) in
       clearOnChange (this w2) = Some false ∧
       textarea (this w2) = Some (ta_set_value "" t) ∧
       modified (this w2) = true ∧
       clearOnChange (this (run after w2)) = Some false).
Proof.
  intros Hr Hi Hg He. apply reachable_Inv in Hr as HI.
  pose proof (wp_startEditing graph c evt w HI Hi) as Hwp. unfold wp in Hwp.
  destruct (startEditing graph c evt w) as [[] w1|]; [|done].
  destruct Hwp as (Hout & _ & _). unfold start_outcome in Hout.
  rewrite Hg in Hout. destruct Hout as [_ _ _ (t1 & Ht1 & _ & Hv) Hcc _ _ _].
  rewrite He in Hcc. unfold initial_text in Hv.
  unfold label_is_empty in He.
  exists w1, t1. split; [done|]. split; [done|]. split.
  { rewrite Hv. by repeat case_match. }
  split; [done|]. split.
  - intros before Hq. by rewrite run_quiet.
  - intros before graph' key t after Hq Hk Ht Hafter w2.
    destruct (exec_modifying_keystroke graph' key t (run before w1))
      as (H1 & H2 & H3); [done|done|by rewrite run_quiet|].
    split; [done|]. split; [done|]. split; [done|].
    by apply run_same_session_false.
Qed.

Lemma placeholder_cleared_once_witness :
  reachable w_placeholder ∧ intact w_placeholder ∧
  getState demo_graph 2%nat = Some state_2 ∧
  label_is_empty demo_graph state_2 None = true ∧
  ∃ w1 t1,
    startEditing demo_graph 2%nat None w_placeholder = Ok tt w1 ∧
    textarea (this w1) = Some t1 ∧ value t1 = emptyLabelText (this w_placeholder) ∧
    clearOnChange (this w1) = Some true ∧
    (∀ before, quiet before = true →
       clearOnChange (this (run before w1)) = Some true) ∧
    (∀ before graph' key t after,
       quiet before = true → modifying_keystroke graph' key = true →
       textarea (this (run before w1)) = Some t →
       same_session after = true →
       let w2 := exec graph' (Keydown key) (run before w1) in
       clearOnChange (this w2) = Some false ∧
       textarea (this w2) = Some (ta_set_value "" t) ∧
       modified (this w2) = true ∧
       clearOnChange (this (run after w2)) = Some false).
Proof.
  assert (reachable w_placeholder) as Hr by (by eexists).
  assert (intact w_placeholder) as Hi by (intros [? Hc]; discriminate Hc).
  split; [exact Hr|]. split; [exact Hi|].
  split; [reflexivity|]. split; [reflexivity|].
  exact (placeholder_cleared_once demo_graph 2%nat None state_2 w_placeholder
           Hr Hi eq_refl eq_refl).
Defined.

(** *** After [destroy] *)

Lemma destroy_returns w :
  ∃ w',
    destroy w = Ok tt w' ∧
    textarea (this w') = None ∧
    editingCell (this w') = editingCell (this w) ∧
    textDiv (this w') = textDiv (this w) ∧
    emptyLabelText (this w') = emptyLabelText (this w) ∧
    (Inv w → changeHandler (this w') = false ∧ modelListeners w' = 0%nat).
Proof.
  split_world w. unfold_M. cbn.
  destruct textarea0, changeHandler0; cbn; eexists;
    (split; [done|]); do 4 (split; [done|]);
    intros [H1 H2 H3 H4 [H5 H5'] H6]; cbn in *; subst.
  - done.
  - by specialize (H5' ltac:(by eexists)).
  - by destruct (H5 eq_refl).
  - done.
Qed.

(** C8, refuted: on the destroyed editor [startEditing] begins a
    session; and on an editor destroyed during a session,
    [stopEditing] throws. *)
Lemma after_destroy_counterexample :
  reachable w_destroyed ∧
  ¬ inert demo_graph (StartEditing 2%nat None) w_destroyed ∧
  editingCell (this (exec demo_graph (StartEditing 2%nat None) w_destroyed))
    = Some 2%nat ∧
  ¬ inert demo_graph (StopEditing true) (exec demo_graph Destroy w_editing) ∧
  ∃ w', call demo_graph (StopEditing true) (exec demo_graph Destroy w_editing)
        = TypeError w'.
Proof.
  split; [by eexists|].
  assert (editingCell (this (exec demo_graph (StartEditing 2%nat None) w_destroyed))
          = Some 2%nat) as Hc by (by vm_compute).
  split.
  { unfold inert. intros Hi. unfold exec in Hc. rewrite Hi in Hc.
    revert Hc. by vm_compute. }
  split; [exact Hc|].
  assert (∃ w', call demo_graph (StopEditing true)
                  (exec demo_graph Destroy w_editing) = TypeError w') as [w' Hw']
    by (eexists; by vm_compute).
  split; [|by exists w'].
  unfold inert. by rewrite Hw'.
Qed.

(** C8, amended. [destroy()] returns, leaves no textarea and no
    listener on the model, and a second [destroy()] changes nothing.
    If no session was active when the editor was destroyed, then
    [stopEditing], [resize], the change notification of the model and
    the events of the textarea change nothing either and do not throw;
    [startEditing] does not throw, and makes the textarea anew and
    begins a session as on a fresh editor. *)
Theorem destroyed_editor (graph : mxGraph) (w : World) :
  reachable w →
  ∃ w',
    destroy w = Ok tt w' ∧
    textarea (this w') = None ∧ modelListeners w' = 0%nat ∧
    inert graph Destroy w' ∧
    (editingCell (this w) = None →
     (∀ graph' op, inert_when_destroyed op = true → inert graph' op w') ∧
     (∀ graph' c evt,
        ∃ w'', startEditing graph' c evt w' = Ok tt w'' ∧
               is_Some (textarea (this w'')) ∧
               start_outcome graph' c evt (emptyLabelText (this w)) w'')).
Proof.
  intros Hr. apply reachable_Inv in Hr as HI.
  destruct (destroy_returns w) as (w' & Hd & Hta & Hc & Hdiv & Hel & Hh).
  destruct (Hh HI) as [Hch Hml].
  assert (destroy w' = Ok tt w') as Hd'
    by (unfold destroy, get, mbind, M_bind; by rewrite Hta).
  exists w'. split; [done|]. split; [done|]. split; [done|]. split; [done|].
  intros Hidle. rewrite Hidle in Hc.
  assert (textDiv (this w') = None) as Hdiv'.
  { rewrite Hdiv. destruct HI as [H1 _ _ _ _ _].
    destruct (textDiv (this w)); [|done]. rewrite Hidle in H1. by destruct H1. }
  split.
  - intros graph' op Hop. unfold inert.
    destruct op; try done; unfold call, with_textarea, get, mbind, M_bind;
      rewrite ?Hta, ?Hch; try done.
    + by apply stopEditing_idle.
    + by apply resize_idle.
  - intros graph' c evt.
    assert (Inv w') as HI'.
    { replace w' with (world_of (destroy w)) by (by rewrite Hd).
      by apply destroy_Inv. }
    assert (intact w') as Hi' by (unfold intact; rewrite Hc; by intros [? ?]).
    pose proof (wp_startEditing graph' c evt w' HI' Hi') as Hwp. unfold wp in Hwp.
    destruct (startEditing graph' c evt w') as [[] w''|]; [|done].
    exists w''. rewrite Hel in Hwp. by destruct Hwp as (? & ? & ?).
Qed.

Lemma destroyed_editor_witness :
  reachable w_used ∧ editingCell (this w_used) = None ∧
  ∃ w',
    destroy w_used = Ok tt w' ∧
    textarea (this w') = None ∧ modelListeners w' = 0%nat ∧
    inert demo_graph Destroy w' ∧
    (∀ graph' op, inert_when_destroyed op = true → inert graph' op w') ∧
    (∀ graph' c evt,
       ∃ w'', startEditing graph' c evt w' = Ok tt w'' ∧
              is_Some (textarea (this w'')) ∧
              start_outcome graph' c evt (emptyLabelText (this w_used)) w'').
Proof.
  assert (reachable w_used) as Hr by (by eexists).
  assert (editingCell (this w_used) = None) as Hc by (by vm_compute).
  split; [exact Hr|]. split; [exact Hc|].
  destruct (destroyed_editor demo_graph w_used Hr)
    as (w' & H1 & H2 & H3 & H4 & H5).
  exists w'. split; [exact H1|]. split; [exact H2|]. split; [exact H3|].
  split; [exact H4|]. exact (H5 Hc).
Defined.

(** *** The geometry of the editor *)

Section Geometry.
Local Open Scope Q_scope.

(** C4, refuted: for an 8pt label at scale 1 the minimum width is 28,
    not [max(30, 28)]. *)
Lemma getMinimumSize_counterexample :
  ∃ r, getMinimumSize demo_graph state_small_font w_editing = Ok r w_editing ∧
       width r = 28 ∧
       ¬ (width r == claimed_minimum_width demo_graph state_small_font).
Proof.
  eexists. split; [by vm_compute|]. split; [by vm_compute|].
  by vm_compute.
Qed.

(** C4, amended. With a textarea, [getMinimumSize] returns; the width
    is [textSize * scale + 20] when the label has a text shape, with
    no lower bound of its own (it is [max(30, ...)] once
    [textSize * scale >= 10]), and 30 otherwise; the height is 120
    when the textarea is left-aligned and 40 otherwise. *)
Theorem getMinimumSize_spec
    (graph : mxGraph) (state : mxCellState) (t : HTMLTextAreaElement)
    (w : World) :
  textarea (this w) = Some t →
  ∃ r, getMinimumSize graph state w = Ok r w ∧
       x r = 0 ∧ y r = 0 ∧
       width r = match text state with
                 | Some tx => size tx * scale graph + 20
                 | None => 30
                 end ∧
       height r = (if decide (style_textAlign t = ALIGN_LEFT) then 120 else 40) ∧
       (∀ tx, text state = Some tx → 10 <= size tx * scale graph →
              width r == claimed_minimum_width graph state).
Proof.
  intros Ht. unfold getMinimumSize, the_textarea, mbind, M_bind, mret, M_ret.
  rewrite Ht. eexists. split; [done|]. cbn.
  split; [done|]. split; [done|]. split; [done|]. split.
  - case_decide as Ha.
    + by rewrite Ha.
    + destruct (String.eqb_spec (style_textAlign t) "left"); [done|done].
  - intros tx Htx Hle. unfold claimed_minimum_width. rewrite Htx.
    unfold Math_max. symmetry. apply Q.max_r. lra.
Qed.

Lemma getMinimumSize_spec_witness :
  textarea (this w_editing) = Some ta_editing ∧
  ∃ r, getMinimumSize demo_graph state_1 w_editing = Ok r w_editing ∧
       x r = 0 ∧ y r = 0 ∧
       width r = match text state_1 with
                 | Some tx => size tx * scale demo_graph + 20
                 | None => 30
                 end ∧
       height r = (if decide (style_textAlign ta_editing = ALIGN_LEFT)
                   then 120 else 40) ∧
       (∀ tx, text state_1 = Some tx → 10 <= size tx * scale demo_graph →
              width r == claimed_minimum_width demo_graph state_1).
Proof.
  split; [exact w_editing_textarea|].
  exact (getMinimumSize_spec demo_graph state_1 ta_editing w_editing
           w_editing_textarea).
Defined.

(** The default spacings at scale 1: 2 on every side. *)
Lemma default_spacing_left (s : Style) :
  default_spacings s →
  parseInt_or s STYLE_SPACING_LEFT 0 * 1 + parseInt_or s STYLE_SPACING 2 * 1 = 2.
Proof. intros (H & _ & _ & _ & Hl). unfold parseInt_or. by rewrite H, Hl. Qed.

Lemma default_spacing_top (s : Style) :
  default_spacings s →
  parseInt_or s STYLE_SPACING_TOP 0 * 1 + parseInt_or s STYLE_SPACING 2 * 1 = 2.
Proof. intros (H & Ht & _). unfold parseInt_or. by rewrite H, Ht. Qed.

(** [getEditorBounds] for a node that has no text bounding box. *)
Lemma getEditorBounds_node graph state t w :
  textarea (this w) = Some t →
  isEdge graph (cell state) = false → isVertex graph (cell state) = true →
  text state ≫= boundingBox = None →
  ∃ wd ht,
    getEditorBounds graph state w =
      Ok (apply_label_position state
            {| x := x state +
                    (parseInt_or (style state) STYLE_SPACING_LEFT 0 * scale graph +
                     parseInt_or (style state) STYLE_SPACING 2 * scale graph);
               y := y state +
                    (parseInt_or (style state) STYLE_SPACING_TOP 0 * scale graph +
                     parseInt_or (style state) STYLE_SPACING 2 * scale graph);
               width := wd; height := ht |}) w.
Proof.
  intros Ht He Hv Hb.
  unfold getEditorBounds, getMinimumSize, the_textarea, mbind, M_bind, mret, M_ret.
  rewrite Ht, He, Hv. unfold mbind, option_bind in Hb.
  destruct (text state) as [tx|]; cbn in *; [rewrite Hb|]; eauto.
Qed.

Lemma apply_label_position_with (p : string) state r :
  x (apply_label_position (with_label_position p state) r) =
    (if String.eqb p ALIGN_LEFT then x r - width state
     else if String.eqb p ALIGN_RIGHT then x r + width state
     else x r) ∧
  y (apply_label_position (with_label_position p state) r) = shifted_y state r.
Proof.
  unfold apply_label_position, shifted_y, getValue, with_label_position. cbn.
  rewrite lookup_insert_eq, lookup_insert_ne by done. cbn.
  destruct (String.eqb p ALIGN_LEFT), (String.eqb p ALIGN_RIGHT);
    repeat case_match; done.
Qed.

(** C5. For a node with no text bounding box, the default spacing and
    scale 1, [getEditorBounds] returns; with label position "center"
    its [x] is the node's [x] plus 2, with "right" it is larger by
    exactly the node's width, with "left" smaller by exactly the
    node's width, and [y] is the same in all three (the node's [y]
    plus 2 when no vertical label position is set). *)
Theorem label_position_shifts_x
    (graph : mxGraph) (state : mxCellState) (t : HTMLTextAreaElement)
    (w : World) :
  textarea (this w) = Some t →
  isEdge graph (cell state) = false → isVertex graph (cell state) = true →
  text state ≫= boundingBox = None →
  default_spacings (style state) →
  scale graph = 1 →
  ∃ rc rr rl,
    getEditorBounds graph (with_label_position ALIGN_CENTER state) w = Ok rc w ∧
    getEditorBounds graph (with_label_position ALIGN_RIGHT state) w = Ok rr w ∧
    getEditorBounds graph (with_label_position ALIGN_LEFT state) w = Ok rl w ∧
    x rc = x state + 2 ∧
    x rr = x rc + width state ∧
    x rl = x rc - width state ∧
    y rr = y rc ∧ y rl = y rc ∧
    (strings (style state) !! STYLE_VERTICAL_LABEL_POSITION = None →
     y rc = y state + 2).
Proof.
  intros Ht He Hv Hb Hn Hs.
  destruct (getEditorBounds_node graph (with_label_position ALIGN_CENTER state)
              t w Ht He Hv Hb) as (wc & hc & Hc).
  destruct (getEditorBounds_node graph (with_label_position ALIGN_RIGHT state)
              t w Ht He Hv Hb) as (wr & hr & Hr).
  destruct (getEditorBounds_node graph (with_label_position ALIGN_LEFT state)
              t w Ht He Hv Hb) as (wl & hl & Hl).
  rewrite Hs in Hc, Hr, Hl.
  assert (∀ p, default_spacings (style (with_label_position p state)))
    as Hn' by (intros; exact Hn).
  rewrite (default_spacing_left _ (Hn' _)), (default_spacing_top _ (Hn' _)) in Hc.
  rewrite (default_spacing_left _ (Hn' _)), (default_spacing_top _ (Hn' _)) in Hr.
  rewrite (default_spacing_left _ (Hn' _)), (default_spacing_top _ (Hn' _)) in Hl.
  eexists _, _, _. split; [exact Hc|]. split; [exact Hr|]. split; [exact Hl|].
  rewrite !(proj1 (apply_label_position_with _ _ _)).
  rewrite !(proj2 (apply_label_position_with _ _ _)).
  cbn. repeat split; try done.
  intros Hvp. unfold shifted_y, getValue. by rewrite Hvp.
Qed.

(** The 100x40 node at (10,20): the editor is at x = 12, y = 22 for
    "center", at x = 112 for "right" and at x = -88 for "left". *)
Lemma label_position_shifts_x_witness :
  textarea (this w_editing) = Some ta_editing ∧
  isEdge demo_graph (cell state_2) = false ∧
  isVertex demo_graph (cell state_2) = true ∧
  text state_2 ≫= boundingBox = None ∧
  default_spacings (style state_2) ∧
  scale demo_graph = 1 ∧
  ∃ rc rr rl,
    getEditorBounds demo_graph (with_label_position ALIGN_CENTER state_2) w_editing
      = Ok rc w_editing ∧
    getEditorBounds demo_graph (with_label_position ALIGN_RIGHT state_2) w_editing
      = Ok rr w_editing ∧
    getEditorBounds demo_graph (with_label_position ALIGN_LEFT state_2) w_editing
      = Ok rl w_editing ∧
    x rc = 12 ∧ y rc = 22 ∧ x rr = 112 ∧ x rl = -88.
Proof.
  assert (default_spacings (style state_2)) as Hn by (repeat split; reflexivity).
  split; [exact w_editing_textarea|].
  split; [reflexivity|]. split; [reflexivity|]. split; [reflexivity|].
  split; [exact Hn|]. split; [reflexivity|].
  destruct (label_position_shifts_x demo_graph state_2 ta_editing w_editing
              w_editing_textarea eq_refl eq_refl eq_refl Hn eq_refl)
    as (rc & rr & rl & Hc & Hr & Hl & Hxc & Hxr & Hxl & _ & _ & Hyc).
  exists rc, rr, rl. split; [exact Hc|]. split; [exact Hr|]. split; [exact Hl|].
  rewrite Hxr, Hxl, Hxc, (Hyc eq_refl). repeat split; reflexivity.
Defined.

End Geometry.

(* --------------------------------------------------------------------- *)
(** ** Further properties of the editor *)
(* --------------------------------------------------------------------- *)

(** *** The invariant [Shown] holds of every reachable state *)

Ltac solve_Shown :=
  split;
  unfold ta_set_value, ta_set_textAlign, ta_set_display, ta_set_parentNode in *;
  cbn in *; simplify_eq; intros; simplify_eq; cbn in *;
  repeat match goal with
         | H : ?a = ?a → _ |- _ => specialize (H eq_refl)
         | H : ∀ t, Some _ = Some t → _ |- _ => specialize (H _ eq_refl)
         | H : true = true → _ |- _ => specialize (H eq_refl)
         | H : is_Some None |- _ => by destruct H
         | H : ∀ n0, TN_node ?n ≠ TN_node n0 |- _ => by destruct (H n)
         end;
  eauto; try done; try congruence;
  try apply difference_diag_L; try apply (right_id_L ∅ (∪)).

Lemma Shown_new : Shown new_World.
Proof. split; cbn; try done. Qed.

Lemma stopEditing_Shown cancel w :
  Shown w →
  wp (stopEditing cancel)
     (λ _ w', Shown w' ∧ editingCell (this w') = None) Shown w.
Proof.
  intros [H1 H2 H3]. split_world w. unfold wp. unfold_M. cbn.
  repeat step_M; try (split; [|done]); solve_Shown.
Qed.

Lemma stopEditing_Shown_world cancel w :
  Shown w → Shown (world_of (stopEditing cancel w)).
Proof.
  intros HS. apply wp_world_of.
  eapply wp_mono; [by apply stopEditing_Shown|by intros ? ? [? _]|done].
Qed.

Lemma resize_Shown graph w : Shown w → Shown (world_of (resize graph w)).
Proof.
  intros [H1 H2 H3]. apply wp_world_of.
  split_world w. unfold wp. unfold_M. cbn.
  repeat step_M; solve_Shown.
Qed.

Lemma destroy_Shown w : Shown w → Shown (world_of (destroy w)).
Proof.
  intros [H1 H2 H3]. apply wp_world_of.
  split_world w. unfold wp. unfold_M. cbn.
  repeat step_M; solve_Shown.
Qed.

Lemma wp_lazy_init_Shown w :
  Shown w →
  wp (match textarea (this w) with None => init | Some _ => mret tt end)
     (λ _, Shown) Shown w.
Proof.
  intros [H1 H2 H3]. split_world w. unfold wp. unfold_M. cbn.
  repeat step_M; solve_Shown.
Qed.

Lemma startEditing_Shown graph c evt w :
  Shown w → Shown (world_of (startEditing graph c evt w)).
Proof.
  intros HS. apply wp_world_of. unfold startEditing.
  apply wp_get.
  apply wp_seq with (I := λ _, Shown); [by apply wp_lazy_init_Shown|].
  intros _ w1 Hw1.
  apply wp_seq with (I := λ _ w', Shown w' ∧ editingCell (this w') = None);
    [by apply stopEditing_Shown|].
  clear. intros _ w [[H1 H2 H3] H4].
  split_world w. unfold wp. unfold_M. cbn.
  repeat step_M; solve_Shown.
Qed.

Lemma call_Shown graph op w : Shown w → Shown (exec graph op w).
Proof.
  intros HS. unfold exec. destruct op.
  - by apply startEditing_Shown.
  - by apply stopEditing_Shown_world.
  - by apply resize_Shown.
  - by apply destroy_Shown.
  - destruct HS. by split_world w.
  - destruct HS. by split_world w.
  - destruct HS as [H1 H2 H3]. apply wp_world_of.
    split_world w. unfold wp. unfold_M. cbn. repeat step_M; solve_Shown.
  - destruct HS as [H1 H2 H3]. apply wp_world_of.
    split_world w. unfold wp. unfold_M. cbn. repeat step_M; solve_Shown.
  - unfold call, with_textarea. apply wp_world_of, wp_get.
    destruct (textarea (this w)) eqn:Hta; [|done].
    apply wp_world_of. unfold on_keydown, graph_stopEditing.
    repeat case_match; try by apply stopEditing_Shown_world.
    + clear -HS Hta. destruct HS as [H1 H2 H3]. apply wp_world_of.
      split_world w. unfold wp. unfold_M. cbn. repeat step_M; solve_Shown.
    + done.
  - destruct HS as [H1 H2 H3]. apply wp_world_of.
    split_world w. unfold wp. unfold_M. cbn. repeat step_M; solve_Shown.
  - unfold call, with_textarea. apply wp_world_of, wp_get.
    destruct (textarea (this w)); [|done].
    apply wp_world_of. by apply stopEditing_Shown_world.
  - unfold call. apply wp_world_of, wp_get.
    destruct (changeHandler (this w)); [|done].
    unfold changeHandler_fn. apply wp_get.
    destruct (editingCell (this w)); [|done].
    destruct (getState graph c); [done|].
    apply wp_world_of. by apply stopEditing_Shown_world.
Qed.

Lemma run_Shown history w : Shown w → Shown (run history w).
Proof.
  revert w. induction history as [|[graph op] rest IH]; intros w HS; [done|].
  simpl. by apply IH, call_Shown.
Qed.

Lemma reachable_Shown w : reachable w → Shown w.
Proof. intros [history ->]. apply run_Shown, Shown_new. Qed.

(** Histories compose, and lead from reachable states to reachable
    states. *)
Lemma run_app h1 h2 w : run (h1 ++ h2) w = run h2 (run h1 w).
Proof.
  revert w. induction h1 as [|[g o] rest IH]; intros w; [done|]. apply IH.
Qed.

Lemma reachable_run history w : reachable w → reachable (run history w).
Proof. intros [h ->]. exists (h ++ history). by rewrite run_app. Qed.

Lemma reachable_exec graph op w : reachable w → reachable (exec graph op w).
Proof. apply (reachable_run [(graph, op)]). Qed.

(** *** Listeners, labels and the overlay *)

(** X10. However often the editor is initialised and destroyed, it
    holds at most one change listener on the model: exactly one while
    it has a textarea, and none while it has not. *)
Theorem editor_holds_one_listener (w : World) :
  reachable w →
  modelListeners w ≤ 1 ∧
  (modelListeners w = 1 ↔ is_Some (textarea (this w))) ∧
  (modelListeners w = 0 ↔ textarea (this w) = None).
Proof.
  intros [_ _ _ _ [H5 H5'] H6]%reachable_Inv.
  destruct (changeHandler (this w)) eqn:Hch; rewrite H6.
  - specialize (H5 eq_refl). split; [lia|]. split; [done|].
    split; [done|]. intros Hn. rewrite Hn in H5. by destruct H5.
  - split; [lia|]. split.
    + split; [done|]. intros Hs. by specialize (H5' Hs).
    + split; [|done]. intros _. destruct (textarea (this w)); [|done].
      by specialize (H5' ltac:(by eexists)).
Qed.

Lemma editor_holds_one_listener_witness :
  reachable w_editing ∧ modelListeners w_editing = 1%nat.
Proof.
  split; [exact w_editing_reachable|].
  destruct (editor_holds_one_listener w_editing w_editing_reachable)
    as (_ & Hone & _).
  apply Hone. rewrite w_editing_textarea. by eexists.
Defined.

(** X11. The editor hides at most one label at a time, that of the
    cell being edited; whenever no session is active, no label is left
    hidden, also after a [TypeError]. *)
Theorem no_label_left_hidden (w : World) :
  reachable w →
  (editingCell (this w) = None → hidden w = ∅) ∧
  (∀ n, n ∈ hidden w →
        hidden w = {[n]} ∧ textNode (this w) = TN_node n ∧
        is_Some (editingCell (this w))).
Proof.
  intros [H1 H2 _]%reachable_Shown. split.
  - intros Hc. specialize (H2 Hc). rewrite H1.
    destruct (textNode (this w)) as [| |n]; [done|done|by destruct (H2 n)].
  - intros n Hn. rewrite H1 in Hn |- *.
    destruct (textNode (this w)) as [| |n'] eqn:Htn;
      [by apply elem_of_empty in Hn|by apply elem_of_empty in Hn|].
    apply elem_of_singleton in Hn as ->. split; [done|]. split; [done|].
    destruct (editingCell (this w)) eqn:Hc; [by eexists|].
    by destruct (H2 eq_refl n').
Qed.

Lemma no_label_left_hidden_witness :
  reachable w_used ∧ editingCell (this w_used) = None ∧ hidden w_used = ∅.
Proof.
  assert (reachable w_used) as Hr by (by eexists).
  assert (editingCell (this w_used) = None) as Hc by (by vm_compute).
  split; [exact Hr|]. split; [exact Hc|].
  exact (proj1 (no_label_left_hidden w_used Hr) Hc).
Defined.

(** X12. The textarea is attached to the document exactly while a
    session is active. *)
Theorem overlay_attached_iff_session (w : World) (t : HTMLTextAreaElement) :
  reachable w → textarea (this w) = Some t →
  (parentNode t = true ↔ is_Some (editingCell (this w))).
Proof.
  intros Hr Ht. split.
  - apply reachable_Shown in Hr as [_ _ H3]. by apply H3.
  - apply reachable_Inv in Hr as [_ _ _ H4 _ _]. intros Hc. by apply H4.
Qed.

Lemma overlay_attached_iff_session_witness :
  reachable w_editing ∧ textarea (this w_editing) = Some ta_editing ∧
  (parentNode ta_editing = true ↔ is_Some (editingCell (this w_editing))).
Proof.
  split; [exact w_editing_reachable|]. split; [exact w_editing_textarea|].
  exact (overlay_attached_iff_session w_editing ta_editing w_editing_reachable
           w_editing_textarea).
Defined.

(** *** When [labelChanged] is called *)

Lemma stopEditing_labelChanged cancel w :
  Inv w →
  labelChanged (world_of (stopEditing cancel w)) =
    labelChanged w ++
    match editingCell (this w), textarea (this w) with
    | Some c, Some t =>
        if negb cancel && modified (this w)
        then [(c, remove_cr (value t), trigger (this w))]
        else []
    | _, _ => []
    end.
Proof.
  intros [H1 H2 H3 H4 H5 H6].
  apply (wp_world_of _ (λ w', labelChanged w' = labelChanged w ++ _)).
  split_world w. unfold wp. unfold_M. cbn.
  repeat step_M; rewrite ?app_nil_r; try done.
  all: by destruct (H3 ltac:(by eexists)).
Qed.

Lemma stopEditing_true_labelChanged w :
  labelChanged (world_of (stopEditing true w)) = labelChanged w.
Proof.
  apply (wp_world_of _ (λ w', labelChanged w' = labelChanged w)).
  split_world w. unfold wp. unfold_M. cbn.
  repeat step_M; done.
Qed.

Lemma resize_labelChanged graph w :
  labelChanged (world_of (resize graph w)) = labelChanged w.
Proof.
  apply (wp_world_of _ (λ w', labelChanged w' = labelChanged w)).
  split_world w. unfold wp. unfold_M. cbn.
  repeat step_M; done.
Qed.

Lemma startEditing_labelChanged graph c evt w :
  labelChanged (world_of (startEditing graph c evt w)) = labelChanged w.
Proof.
  apply (wp_world_of _ (λ w', labelChanged w' = labelChanged w)).
  unfold startEditing. apply wp_get.
  apply wp_seq with (I := λ _ w', labelChanged w' = labelChanged w).
  { split_world w. unfold wp. unfold_M. cbn. repeat step_M; done. }
  intros _ w1 <-.
  apply wp_seq with (I := λ _ w', labelChanged w' = labelChanged w1).
  { apply wp_world_of, stopEditing_true_labelChanged. }
  intros _ w2 <-. clear.
  split_world w2. unfold wp. unfold_M. cbn.
  repeat step_M; done.
Qed.

(** X13. An operation calls [labelChanged] at most once, and only
    when it is [stopEditing(false)], a key that stops editing (F2, or
    Enter where Enter stops editing), or a loss of focus where the
    graph invokes [stopEditing] for it, in a modified session with a
    textarea; the call is for the edited cell, with the text without
    carriage returns and the trigger.  [startEditing], [resize],
    [destroy], Escape and a change of the model never call it. *)
Theorem labelChanged_only_on_commit (graph : mxGraph) (op : Op) (w : World) :
  reachable w →
  labelChanged (exec graph op w) = labelChanged w ++ committed graph op w.
Proof.
  intros HI%reachable_Inv. unfold exec, committed.
  assert (∀ l : list LabelChange,
            l = l ++ match editingCell (this w), textarea (this w) with
                     | Some c, Some t => if false && modified (this w)
                                         then [(c, remove_cr (value t), trigger (this w))]
                                         else []
                     | _, _ => []
                     end) as Hnil.
  { intros l. cbn. repeat case_match; by rewrite app_nil_r. }
  destruct op; cbn [commits call].
  - rewrite startEditing_labelChanged. apply Hnil.
  - by apply stopEditing_labelChanged.
  - rewrite resize_labelChanged. apply Hnil.
  - rewrite <- Hnil. by split_world w; unfold_M; cbn; repeat step_M.
  - rewrite <- Hnil. by split_world w.
  - rewrite <- Hnil. by split_world w.
  - rewrite <- Hnil. by split_world w; unfold_M; cbn; repeat step_M.
  - rewrite <- Hnil. by split_world w; unfold_M; cbn; repeat step_M.
  - unfold with_textarea, get, mbind, M_bind.
    destruct (textarea (this w)) as [t|] eqn:Ht.
    2:{ cbn. destruct (editingCell (this w)); by rewrite app_nil_r. }
    unfold on_keydown, graph_stopEditing.
    destruct (isConsumed evt); cbn [negb andb]; [by rewrite <- Hnil|].
    destruct (is_stop_key graph evt).
    { rewrite stopEditing_labelChanged, Ht by done. done. }
    rewrite <- Hnil.
    destruct (Nat.eqb (keyCode evt) 27).
    { apply stopEditing_true_labelChanged. }
    clear. by split_world w; unfold_M; cbn; repeat step_M.
  - rewrite <- Hnil. by split_world w; unfold_M; cbn; repeat step_M.
  - unfold with_textarea, get, mbind, M_bind.
    destruct (textarea (this w)) as [t|] eqn:Ht.
    2:{ cbn. destruct (editingCell (this w)); by rewrite app_nil_r. }
    unfold on_blur, focusLost.
    rewrite stopEditing_labelChanged, Ht, negb_involutive by done. done.
  - rewrite <- Hnil. unfold changeHandler_fn, get, mbind, M_bind.
    destruct (changeHandler (this w)); [|done].
    destruct (editingCell (this w)); [|done].
    destruct (getState graph c); [done|].
    apply stopEditing_true_labelChanged.
Qed.

Lemma labelChanged_only_on_commit_witness :
  reachable w_editing ∧
  labelChanged (exec demo_graph (StopEditing false) w_editing) =
    labelChanged w_editing ++ [(1%nat, a_lf_b, Some 5%nat)] ∧
  labelChanged (exec demo_graph (StartEditing 2%nat None) w_editing) =
    labelChanged w_editing ++ [].
Proof.
  split; [exact w_editing_reachable|]. split.
  - exact (labelChanged_only_on_commit demo_graph (StopEditing false) w_editing
             w_editing_reachable).
  - exact (labelChanged_only_on_commit demo_graph (StartEditing 2%nat None)
             w_editing w_editing_reachable).
Defined.

(** *** After the end of a session *)

Lemma idle_late_event graph op w :
  Inv w → editingCell (this w) = None → late_event graph op = true →
  call graph op w = Ok tt w.
Proof.
  intros HI Hc Hop.
  assert (∀ cancel, stopEditing cancel w = Ok tt w) as Hstop
    by (intros; by apply stopEditing_idle).
  destruct op; try done; cbn [call].
  - apply Hstop.
  - apply resize_idle. destruct HI as [H1 _ _ _ _ _].
    destruct (textDiv (this w)); [|done]. rewrite Hc in H1. by destruct H1.
  - unfold with_textarea, get, mbind, M_bind.
    destruct (textarea (this w)); [|done].
    unfold on_keydown, graph_stopEditing. cbn in Hop.
    destruct (isConsumed evt); [done|]. cbn.
    destruct (is_stop_key graph evt); [apply Hstop|].
    destruct (Nat.eqb (keyCode evt) 27); [apply Hstop|done].
  - unfold with_textarea, get, mbind, M_bind.
    destruct (textarea (this w)); [|done]. apply Hstop.
  - unfold changeHandler_fn, get, mbind, M_bind.
    destruct (changeHandler (this w)); [|done]. by rewrite Hc.
Qed.

(** X14. Once [stopEditing] has ended the session, what may still
    arrive for it does nothing and does not throw: another
    [stopEditing], the deferred [resize], the [blur] of the textarea, a
    change of the model, a key that ends editing. *)
Theorem ended_session_ignores_late_events
    (graph : mxGraph) (cancel : bool) (op : Op) (w : World) :
  reachable w → intact w → late_event graph op = true →
  ∃ w', stopEditing cancel w = Ok tt w' ∧
        editingCell (this w') = None ∧
        call graph op w' = Ok tt w'.
Proof.
  intros Hr Hi Hop. apply reachable_Inv in Hr as HI.
  pose proof (call_Inv graph (StopEditing cancel) w HI) as HI'.
  unfold exec in HI'. cbn [call] in HI'.
  destruct (editingCell (this w)) as [c|] eqn:Hc.
  - destruct (Hi ltac:(by eexists)) as [t Ht].
    rewrite (stopEditing_active cancel c t w) in HI' |- * by done.
    exists (stopped cancel c t w). split; [done|].
    split; [apply stopped_editingCell|].
    apply idle_late_event; [done|apply stopped_editingCell|done].
  - rewrite stopEditing_idle by done. exists w. split; [done|]. split; [done|].
    by apply idle_late_event.
Qed.

Lemma ended_session_ignores_late_events_witness :
  reachable w_editing ∧ intact w_editing ∧ late_event demo_graph Resize = true ∧
  ∃ w', stopEditing false w_editing = Ok tt w' ∧
        editingCell (this w') = None ∧
        call demo_graph Resize w' = Ok tt w'.
Proof.
  assert (intact w_editing) as Hi by (intros _; by eexists).
  split; [exact w_editing_reachable|]. split; [exact Hi|]. split; [reflexivity|].
  exact (ended_session_ignores_late_events demo_graph false Resize w_editing
           w_editing_reachable Hi eq_refl).
Defined.

(** *** The keys *)

Lemma call_Keydown graph evt t w :
  textarea (this w) = Some t →
  call graph (Keydown evt) w = on_keydown graph evt w.
Proof.
  intros Ht. unfold call, with_textarea, get, mbind, M_bind. by rewrite Ht.
Qed.

Lemma on_keydown_goes_on graph evt c t w :
  editingCell (this w) = Some c → textarea (this w) = Some t →
  isConsumed evt = false → is_stop_key graph evt = false →
  Nat.eqb (keyCode evt) 27 = false →
  goes_on graph evt c t w.
Proof.
  intros Hc Ht Hcons Hstop Hesc. unfold goes_on.
  rewrite (call_Keydown graph evt t w Ht). unfold on_keydown.
  rewrite Hcons, Hstop, Hesc. cbn [negb].
  split_world w; simplify_eq; unfold_M; cbn.
  destruct clearOnChange0 as [[]|]; cbn; eexists; by repeat split.
Qed.

(** X15. A key that is not consumed, in a session: F2 commits, Escape
    cancels; Enter commits when Enter stops editing and neither Control
    nor Shift is held, and is an ordinary keystroke otherwise; every
    other key is an ordinary keystroke, which marks the session
    modified and clears a placeholder. *)
Theorem keydown_stops_or_goes_on
    (graph : mxGraph) (evt : KeyEvent) (c : Cell) (t : HTMLTextAreaElement)
    (w : World) :
  reachable w → editingCell (this w) = Some c → textarea (this w) = Some t →
  isConsumed evt = false →
  (keyCode evt = 113 → call graph (Keydown evt) w = Ok tt (stopped false c t w)) ∧
  (keyCode evt = 27 → call graph (Keydown evt) w = Ok tt (stopped true c t w)) ∧
  (keyCode evt = 13 →
   if isEnterStopsCellEditing graph && plain_enter evt
   then call graph (Keydown evt) w = Ok tt (stopped false c t w)
   else goes_on graph evt c t w) ∧
  (keyCode evt ≠ 113 → keyCode evt ≠ 27 → keyCode evt ≠ 13 →
   goes_on graph evt c t w).
Proof.
  intros HI%reachable_Inv Hc Ht Hcons.
  pose proof (λ cancel, stopEditing_active cancel c t w HI Hc Ht) as Hstop.
  pose proof (on_keydown_goes_on graph evt c t w Hc Ht Hcons) as Hgo.
  rewrite (call_Keydown graph evt t w Ht).
  unfold on_keydown, graph_stopEditing, is_stop_key, plain_enter in *.
  rewrite Hcons. cbn [negb]. split; [|split; [|split]].
  - intros ->. apply Hstop.
  - intros ->. cbn. rewrite andb_false_r. apply Hstop.
  - intros Hk. rewrite Hk in *. cbn [Nat.eqb orb andb] in *.
    rewrite andb_true_r in *.
    destruct (isEnterStopsCellEditing graph && negb (isControlDown evt) &&
              negb (isShiftDown evt)) eqn:Hs.
    + rewrite <- andb_assoc in Hs. rewrite Hs. apply Hstop.
    + rewrite <- andb_assoc in Hs. rewrite Hs. by apply Hgo.
  - intros H113 H27 H13. apply Hgo.
    + apply Nat.eqb_neq in H113, H13. by rewrite H113, H13, andb_false_r.
    + by apply Nat.eqb_neq.
Qed.

Lemma keydown_stops_or_goes_on_witness :
  reachable w_editing ∧ editingCell (this w_editing) = Some 1%nat ∧
  textarea (this w_editing) = Some ta_editing ∧
  isConsumed key_escape = false ∧
  call demo_graph (Keydown key_escape) w_editing =
    Ok tt (stopped true 1%nat ta_editing w_editing).
Proof.
  split; [exact w_editing_reachable|]. split; [exact w_editing_cell|].
  split; [exact w_editing_textarea|]. split; [reflexivity|].
  exact (proj1 (proj2 (keydown_stops_or_goes_on demo_graph key_escape 1%nat
           ta_editing w_editing w_editing_reachable w_editing_cell
           w_editing_textarea eq_refl)) eq_refl).
Defined.

(** *** Whole sessions *)

Lemma startEditing_returns graph c evt w :
  Inv w → intact w →
  ∃ w1, startEditing graph c evt w = Ok tt w1 ∧ Inv w1 ∧
        start_outcome graph c evt (emptyLabelText (this w)) w1 ∧
        labelChanged w1 = labelChanged w ∧ is_Some (textarea (this w1)).
Proof.
  intros HI Hi.
  pose proof (wp_startEditing graph c evt w HI Hi) as Hwp.
  pose proof (startEditing_Inv graph c evt w HI) as HI1.
  unfold wp in Hwp. destruct (startEditing graph c evt w) as [[] w1|]; [|done].
  exists w1. by destruct Hwp as (? & ? & ?).
Qed.

(** X16. [startEditing] resets [modified]: a session that is started
    and stopped with nothing in between calls [labelChanged] for
    nothing, with [cancel] false as well. *)
Theorem untouched_session_commits_nothing
    (graph : mxGraph) (c : Cell) (evt : option Trigger) (cancel : bool)
    (w : World) :
  reachable w → intact w →
  ∃ w1 w2,
    startEditing graph c evt w = Ok tt w1 ∧
    (is_Some (getState graph c) → isModified w1 = Ok false w1) ∧
    stopEditing cancel w1 = Ok tt w2 ∧
    labelChanged w2 = labelChanged w ∧
    editingCell (this w2) = None.
Proof.
  intros HI%reachable_Inv Hi.
  destruct (startEditing_returns graph c evt w HI Hi)
    as (w1 & Hs & HI1 & Hout & HL & [t1 Ht1]).
  exists w1. unfold start_outcome in Hout.
  destruct (getState graph c) as [st|].
  - destruct Hout as [Hc1 _ Hm1 _ _ _ _ _].
    exists (stopped cancel c t1 w1). split; [done|]. split.
    { intros _. unfold isModified, get, mbind, M_bind, mret, M_ret.
      by rewrite Hm1. }
    split; [by apply stopEditing_active|].
    split; [|apply stopped_editingCell].
    unfold stopped; cbn. by rewrite Hm1, andb_false_r.
  - exists w1. split; [done|]. split; [by intros [? ?]|].
    split; [by apply stopEditing_idle|done].
Qed.

Lemma untouched_session_commits_nothing_witness :
  reachable w_editing ∧ intact w_editing ∧
  ∃ w1 w2,
    startEditing demo_graph 2%nat None w_editing = Ok tt w1 ∧
    (is_Some (getState demo_graph 2%nat) → isModified w1 = Ok false w1) ∧
    stopEditing false w1 = Ok tt w2 ∧
    labelChanged w2 = labelChanged w_editing ∧
    editingCell (this w2) = None.
Proof.
  assert (intact w_editing) as Hi by (intros _; by eexists).
  split; [exact w_editing_reachable|]. split; [exact Hi|].
  exact (untouched_session_commits_nothing demo_graph 2%nat None false w_editing
           w_editing_reachable Hi).
Defined.

Lemma exec_Typed_Change graph v t w :
  textarea (this w) = Some t →
  exec graph Change (exec graph (Typed v) w) =
    {| this := set_modified true
                 (set_textarea (Some (ta_set_value v t)) (this w));
       labelChanged := labelChanged w; hidden := hidden w;
       modelListeners := modelListeners w |}.
Proof.
  intros Ht. split_world w. simplify_eq. by unfold exec; unfold_M; cbn.
Qed.

(** X17. A whole session: [startEditing] on a rendered cell, text
    typed into the textarea, the [change] event and [stopEditing(false)]
    call [labelChanged] once, for that cell, with the typed text less
    its carriage returns and the trigger of the session; the session is
    over and no label is hidden. *)
Theorem typed_text_is_committed
    (graph : mxGraph) (c : Cell) (evt : option Trigger) (st : mxCellState)
    (v : string) (w : World) :
  reachable w → intact w → getState graph c = Some st →
  let w' := run (type_and_commit graph c evt v) w in
  labelChanged w' = labelChanged w ++ [(c, remove_cr v, evt)] ∧
  editingCell (this w') = None ∧
  hidden w' = ∅.
Proof.
  intros Hr Hi Hst. cbn zeta. apply reachable_Inv in Hr as HI.
  destruct (startEditing_returns graph c evt w HI Hi)
    as (w1 & Hs & HI1 & Hout & HL & [t1 Ht1]).
  unfold start_outcome in Hout. rewrite Hst in Hout.
  destruct Hout as [Hc1 Htr1 _ _ _ _ _ _].
  pose proof (reachable_run (type_and_commit graph c evt v) w Hr) as Hr'.
  pose proof (exec_Typed_Change graph v t1 w1 Ht1) as Htc.
  set (w2 := {| this := _ |}) in Htc.
  assert (Inv w2) as HI2 by (rewrite <- Htc; by do 2 apply call_Inv).
  assert (editingCell (this w2) = Some c) as Hc2
    by (revert Hc1; clear; by split_world w1).
  assert (textarea (this w2) = Some (ta_set_value v t1)) as Ht2
    by (clear; by split_world w1).
  assert (run (type_and_commit graph c evt v) w =
          stopped false c (ta_set_value v t1) w2) as Hrun.
  { unfold type_and_commit. cbn [run]. unfold exec at 4. cbn [call].
    rewrite Hs. cbn [world_of]. rewrite Htc. unfold exec. cbn [call].
    by rewrite (stopEditing_active false c _ w2 HI2 Hc2 Ht2). }
  rewrite Hrun in *.
  split; [|split; [apply stopped_editingCell|]].
  - unfold stopped, w2; cbn. rewrite <- HL, <- Htr1. clear. by split_world w1.
  - apply reachable_Shown in Hr' as [H1 H2 _].
    specialize (H2 (stopped_editingCell _ _ _ _)).
    rewrite H1. destruct (textNode _) as [| |n]; [done|done|by destruct (H2 n)].
Qed.

Lemma typed_text_is_committed_witness :
  reachable new_World ∧ intact new_World ∧
  getState demo_graph 1%nat = Some state_1 ∧
  labelChanged (run (type_and_commit demo_graph 1%nat (Some 5%nat) a_cr_lf_b)
                  new_World) = [(1%nat, a_lf_b, Some 5%nat)].
Proof.
  assert (reachable new_World) as Hr by (by exists []).
  assert (intact new_World) as Hi by (intros [? Hc]; discriminate Hc).
  split; [exact Hr|]. split; [exact Hi|]. split; [reflexivity|].
  exact (proj1 (typed_text_is_committed demo_graph 1%nat (Some 5%nat) state_1
                  a_cr_lf_b new_World Hr Hi eq_refl)).
Defined.

(** *** A cell that is not rendered *)



(** *** [resize] during a session *)



(** *** [destroy] during a session *)

Lemma destroy_in_session c t w :
  Inv w → editingCell (this w) = Some c → textarea (this w) = Some t →
  destroy w =
    Ok tt {| this := set_changeHandler false (set_textarea None (this w));
             labelChanged := labelChanged w; hidden := hidden w;
             modelListeners := 0 |}.
Proof.
  intros [H1 H2 H3 H4 [_ H5] H6] Hc Ht.
  split_world w. simplify_eq. specialize (H5 ltac:(by eexists)). by simplify_eq.
Qed.

(** X20. [destroy()] during a session leaves the cell recorded as
    edited.  [stopEditing] then throws a [TypeError], having made the
    label visible again and committed nothing; and the next
    [startEditing] throws as well, leaving no session, after which
    [startEditing] works again. *)
Theorem destroy_during_session_breaks_editor
    (graph : mxGraph) (c : Cell) (t : HTMLTextAreaElement) (w : World) :
  reachable w → editingCell (this w) = Some c → textarea (this w) = Some t →
  ∃ wd,
    destroy w = Ok tt wd ∧ editingCell (this wd) = Some c ∧
    (∀ cancel, ∃ w',
       stopEditing cancel wd = TypeError w' ∧
       labelChanged w' = labelChanged w ∧ hidden w' = ∅ ∧
       editingCell (this w') =
         if negb cancel && modified (this w) then Some c else None) ∧
    (∀ c2 evt, ∃ w' w'',
       startEditing graph c2 evt wd = TypeError w' ∧
       editingCell (this w') = None ∧ labelChanged w' = labelChanged w ∧
       startEditing graph c2 evt w' = Ok tt w'' ∧
       start_outcome graph c2 evt (emptyLabelText (this w)) w'').
Proof.
  intros Hr Hc Ht. apply reachable_Inv in Hr as HI.
  apply reachable_Shown in Hr as HS.
  eexists. split; [by apply (destroy_in_session c t)|].
  pose proof (reachable_exec graph Destroy w Hr) as Hrd.
  unfold exec in Hrd. cbn [call] in Hrd.
  rewrite (destroy_in_session c t w HI Hc Ht) in Hrd. cbn [world_of] in Hrd.
  set (wd := {| this := _ |}) in *.
  split; [revert Hc; clear; by split_world w|]. split.
  - intros cancel. destruct HI as [_ _ H3 _ _ _], HS as [G1 _ _]. clear Hrd Hr.
    subst wd. split_world w. simplify_eq. specialize (H3 ltac:(by eexists)).
    unfold_M. cbn.
    destruct textNode0 as [| |n]; [done|..]; cbn;
      destruct (negb cancel && modified0); cbn; eexists;
      repeat split; try done; destruct textDiv0; cbn; try done;
      apply difference_diag_L.
  - intros c2 evt.
    pose proof (reachable_exec graph (StartEditing c2 evt) wd Hrd) as Hr'.
    unfold exec in Hr'. cbn [call] in Hr'.
    assert (∃ w', startEditing graph c2 evt wd = TypeError w' ∧
                  editingCell (this w') = None ∧
                  labelChanged w' = labelChanged w ∧
                  emptyLabelText (this w') = emptyLabelText (this w))
      as (w' & Hs & Hc' & HL' & Hel').
    { destruct HI as [_ _ H3 _ _ _]. clear Hrd Hr Hr' HS.
      subst wd. split_world w. simplify_eq. specialize (H3 ltac:(by eexists)).
      unfold_M. cbn.
      destruct textNode0 as [| |n]; [done|..]; cbn;
        destruct textDiv0; cbn; by eexists. }
    rewrite Hs in Hr'. cbn [world_of] in Hr'.
    apply reachable_Inv in Hr' as HI'.
    assert (intact w') as Hi' by (unfold intact; rewrite Hc'; by intros [? ?]).
    destruct (startEditing_returns graph c2 evt w' HI' Hi')
      as (w'' & Hs' & _ & Hout & _).
    exists w', w''. rewrite <- Hel'. done.
Qed.

Lemma destroy_during_session_breaks_editor_witness :
  reachable w_editing ∧ editingCell (this w_editing) = Some 1%nat ∧
  textarea (this w_editing) = Some ta_editing ∧
  ∃ wd w',
    destroy w_editing = Ok tt wd ∧
    startEditing demo_graph 2%nat None wd = TypeError w' ∧
    editingCell (this w') = None.
Proof.
  split; [exact w_editing_reachable|]. split; [exact w_editing_cell|].
  split; [exact w_editing_textarea|].
  destruct (destroy_during_session_breaks_editor demo_graph 1%nat ta_editing
              w_editing w_editing_reachable w_editing_cell w_editing_textarea)
    as (wd & Hd & _ & _ & Hstart).
  destruct (Hstart 2%nat None) as (w' & _ & Hs & Hc & _).
  by exists wd, w'.
Defined.

(** The [let]s of a method body, one by one, as local definitions. *)
Ltac name_let :=
  match goal with
  | |- context C [let x := ?A in @?B x] =>
      let a := fresh x in
      pose (a := A);
      let Ba := eval cbv beta in (B a) in
      let G := context C [Ba] in
      change G
  end.

Section MoreGeometry.
Local Open Scope Q_scope.

Lemma apply_label_position_size state r :
  width (apply_label_position state r) = width r ∧
  height (apply_label_position state r) = height r.
Proof. unfold apply_label_position. by repeat case_match. Qed.

(** X21. The editor is never smaller than [getMinimumSize] says, for
    a node or an edge, with a text bounding box or without. *)
Theorem getEditorBounds_at_least_minimum
    (graph : mxGraph) (state : mxCellState) (t : HTMLTextAreaElement)
    (w : World) :
  textarea (this w) = Some t →
  ∃ m r, getMinimumSize graph state w = Ok m w ∧
         getEditorBounds graph state w = Ok r w ∧
         width m <= width r ∧ height m <= height r.
Proof.
  intros Ht.
  cbv beta iota delta
    [getEditorBounds getMinimumSize the_textarea mbind M_bind mret M_ret].
  repeat first [name_let | progress cbv beta iota | rewrite Ht].
  eexists _, _. split; [reflexivity|]. split; [reflexivity|].
  change (minWidth <= width result4 ∧ minHeight <= height result4).
  clearbody minWidth minHeight isEdge0 bbox spacingLeft spacingRight spacingTop
    spacingBottom.
  assert (width result0 = width result ∧ height result0 = height result)
    as [Hw0 Hh0].
  { unfold result0. destruct isEdge0, bbox; cbv zeta; by repeat case_match. }
  assert (minWidth <= width result2 ∧ minHeight <= height result2) as [Hw2 Hh2].
  { unfold result2, result1. cbn [width height rect_set_x rect_set_y].
    rewrite Hw0, Hh0. unfold result, Math_max. cbn [width height].
    split; apply Q.le_max_l. }
  assert (minWidth <= width result3 ∧ minHeight <= height result3) as [Hw3 Hh3].
  { unfold result3. destruct bbox as [bb|]; [|done].
    destruct isEdge0; cbv zeta; cbn [negb width height rect_set_width rect_set_height];
      unfold Math_max; split;
      first [apply Q.le_max_l|eapply Qle_trans; [eassumption|apply Q.le_max_l]]. }
  unfold result4. destruct (isVertex graph (cell state)); [|done].
  by rewrite (proj1 (apply_label_position_size _ _)),
             (proj2 (apply_label_position_size _ _)).
Qed.

Lemma getEditorBounds_at_least_minimum_witness :
  textarea (this w_editing) = Some ta_editing ∧
  ∃ m r, getMinimumSize demo_graph state_1 w_editing = Ok m w_editing ∧
         getEditorBounds demo_graph state_1 w_editing = Ok r w_editing ∧
         width m <= width r ∧ height m <= height r.
Proof.
  split; [exact w_editing_textarea|].
  exact (getEditorBounds_at_least_minimum demo_graph state_1 ta_editing w_editing
           w_editing_textarea).
Defined.

Lemma parseInt_or_without (key k : string) (v d : Q) (state : mxCellState) :
  numbers (style state) !! key = Some v → v == 0 →
  parseInt_or (style (without_number key state)) k d =
    parseInt_or (style state) k d.
Proof.
  intros Hkey Hv. unfold parseInt_or, without_number. cbn [style numbers].
  destruct (decide (k = key)) as [->|Hne].
  - rewrite lookup_delete_eq, Hkey. unfold truthy.
    apply Qeq_bool_iff in Hv. by rewrite Hv.
  - by rewrite lookup_delete_ne.
Qed.

(** X22. A numeric style entry that is zero counts as absent, since
    [style[key] || d] takes the default for it: with [spacing=0] the
    editor is placed as with no [spacing] entry at all, that is, with
    the default spacing 2. *)
Theorem zero_spacing_is_absent
    (graph : mxGraph) (state : mxCellState) (key : string) (v : Q) (w : World) :
  numbers (style state) !! key = Some v → v == 0 →
  getEditorBounds graph state w = getEditorBounds graph (without_number key state) w ∧
  parseInt_or (style state) key 2 = 2.
Proof.
  intros Hkey Hv. split.
  - cbv beta delta [getEditorBounds].
    rewrite !(parseInt_or_without key _ v _ state Hkey Hv). reflexivity.
  - unfold parseInt_or, truthy. rewrite Hkey.
    apply Qeq_bool_iff in Hv. by rewrite Hv.
Qed.

Lemma zero_spacing_is_absent_witness :
  numbers (style state_zero_spacing) !! STYLE_SPACING = Some 0 ∧
  ∃ r, getEditorBounds demo_graph state_zero_spacing w_editing = Ok r w_editing ∧
       x r = 12 ∧ y r = 22.
Proof.
  split; [reflexivity|].
  destruct (zero_spacing_is_absent demo_graph state_zero_spacing STYLE_SPACING 0
              w_editing eq_refl (Qeq_refl 0)) as [Heq _].
  rewrite Heq. eexists. split; [reflexivity|]. split; reflexivity.
Defined.

(** X23. [getMinimumSize] and [getEditorBounds] read the textarea's
    alignment: on an editor that has no textarea (before the first
    edit, or after [destroy]) they throw a [TypeError]; with one they
    return; and they never change the editor. *)
Theorem getEditorBounds_needs_textarea
    (graph : mxGraph) (state : mxCellState) (w : World) :
  match textarea (this w) with
  | Some _ =>
      ∃ m r, getMinimumSize graph state w = Ok m w ∧
             getEditorBounds graph state w = Ok r w
  | None =>
      getMinimumSize graph state w = TypeError w ∧
      getEditorBounds graph state w = TypeError w
  end.
Proof.
  cbv beta iota delta
    [getEditorBounds getMinimumSize the_textarea mbind M_bind mret M_ret].
  destruct (textarea (this w)) as [t|] eqn:Ht;
    repeat first [name_let | progress cbv beta iota | rewrite Ht].
  - eexists _, _. split; reflexivity.
  - split; reflexivity.
Qed.

End MoreGeometry.

Lemma elem_of_string_app (a : ascii) (s1 s2 : string) :
  a ∈ list_ascii_of_string (s1 ++ s2) ↔
  a ∈ list_ascii_of_string s1 ∨ a ∈ list_ascii_of_string s2.
Proof.
  induction s1 as [|b s1 IH]; simpl.
  - split; [by right|intros [?%elem_of_nil|?]; done].
  - rewrite !elem_of_cons, IH. tauto.
Qed.

Lemma elem_of_replace_char (a c : ascii) (by_ s : string) :
  a ∈ list_ascii_of_string (replace_char c by_ s) →
  (a ∈ list_ascii_of_string s ∧ a ≠ c) ∨ a ∈ list_ascii_of_string by_.
Proof.
  induction s as [|b s IH]; simpl; [by intros ?%elem_of_nil|].
  destruct (Ascii.eqb_spec b c) as [->|Hne].
  - rewrite elem_of_string_app. intros [?|Hin]; [by right|].
    destruct (IH Hin) as [[? ?]|?]; [left|by right].
    split; [apply elem_of_cons; by right|done].
  - simpl. rewrite elem_of_cons. intros [->|Hin]; [left|].
    + split; [apply elem_of_cons; by left|done].
    + destruct (IH Hin) as [[? ?]|?]; [left|by right].
      split; [apply elem_of_cons; by right|done].
Qed.

(** X24. The HTML that is measured holds no line feed, and no space
    when the label does not wrap: they have become [<br/>] and
    [&nbsp;], whatever [htmlEntities] does to the text. *)
Theorem measured_html_keeps_layout
    (htmlEntities : string → string) (wrap : bool) (value : string) :
  ("010"%char ∉ list_ascii_of_string (measured_html htmlEntities wrap value)) ∧
  (wrap = false →
   " "%char ∉ list_ascii_of_string (measured_html htmlEntities wrap value)).
Proof.
  unfold measured_html. split.
  - intros [[_ ?]|Hin]%elem_of_replace_char; [done|].
    revert Hin. by apply (bool_decide_unpack _).
  - intros -> [[[[_ ?]|Hin]%elem_of_replace_char _]|Hin]%elem_of_replace_char;
      [done|..]; revert Hin; by apply (bool_decide_unpack _).
Qed.

Section Placement.
Local Open Scope Q_scope.

(** X25. The textarea is never placed at a negative coordinate.  A
    label that is not clipped gets at least 40 by 20 pixels, and at
    least the measured size plus 30 and 16; a clipped one is kept
    within the session's bounds, less 4 pixels of width.  A label that
    wraps and is not clipped keeps its width and its horizontal
    position. *)
Theorem resize_placement_limits
    (getAlignmentAsPoint : string → string → option mxPoint)
    (graph : mxGraph) (state : mxCellState) (bounds : mxRectangle)
    (offsetWidth offsetHeight : Q) :
  let p := resize_placement getAlignmentAsPoint graph state bounds
             offsetWidth offsetHeight in
  (∀ l, style_left p = Some l → 0 <= l) ∧
  (∀ tp, style_top p = Some tp → 0 <= tp) ∧
  (if isLabelClipped graph (cell state)
   then style_height p <= height bounds ∧
        ∃ wd, style_width p = Some wd ∧ wd <= width bounds - 4
   else 20 <= style_height p ∧ offsetHeight + 16 <= style_height p ∧
        ∀ wd, style_width p = Some wd → 40 <= wd ∧ offsetWidth + 30 <= wd) ∧
  (isWrapping graph (cell state) = true →
   isLabelClipped graph (cell state) = false →
   style_left p = None ∧ style_width p = None).
Proof.
  cbv zeta. unfold resize_placement. cbn [style_left style_top style_width style_height].
  unfold Math_max, Math_min.
  split; [|split; [|split]].
  - intros l Hl. repeat case_match; simplify_eq; apply Q.le_max_l.
  - intros tp Htp. repeat case_match; simplify_eq; apply Q.le_max_l.
  - destruct (isLabelClipped graph (cell state)); cbn [orb].
    + split; [apply Q.le_min_l|]. eexists. split; [done|apply Q.le_min_l].
    + split; [apply Q.le_max_r|]. split; [apply Q.le_max_l|].
      intros wd Hwd. destruct (negb _); simplify_eq.
      split; [apply Q.le_max_r|apply Q.le_max_l].
  - intros -> ->. cbn. by repeat case_match.
Qed.

(** X26. For an edge [resize] gives the session bounds of no extent,
    so that a clipped edge label is sized -4 by 0 pixels, whatever its
    text measures. *)
Theorem clipped_edge_placement
    (getAlignmentAsPoint : string → string → option mxPoint)
    (graph : mxGraph) (state : mxCellState) (offsetWidth offsetHeight : Q) :
  isEdge graph (cell state) = true →
  isLabelClipped graph (cell state) = true →
  let p := resize_placement getAlignmentAsPoint graph state
             (resized_bounds graph state) offsetWidth offsetHeight in
  (∃ wd, style_width p = Some wd ∧ wd == -4) ∧ style_height p == 0.
Proof.
  intros He Hc. cbv zeta. unfold resize_placement, resized_bounds.
  rewrite He, Hc. cbn [style_width style_height orb width height].
  unfold Math_max, Math_min. split.
  - eexists. split; [done|]. rewrite Q.min_l; [done|].
    apply Qle_trans with 40; [done|apply Q.le_max_r].
  - apply Q.min_l. apply Qle_trans with 20; [done|apply Q.le_max_r].
Qed.

Lemma clipped_edge_placement_witness :
  isEdge edge_graph (cell state_edge) = true ∧
  isLabelClipped edge_graph (cell state_edge) = true ∧
  style_height (resize_placement (λ _ _, None) edge_graph state_edge
                  (resized_bounds edge_graph state_edge) 100 30) == 0.
Proof.
  split; [reflexivity|]. split; [reflexivity|].
  exact (proj2 (clipped_edge_placement (λ _ _, None) edge_graph state_edge
                  100 30 eq_refl eq_refl)).
Defined.

End Placement.

(** *** The layout at the start of a session *)

(** Of the editor, [getEditorBounds] reads the text alignment of the
    textarea and nothing else. *)
Lemma getEditorBounds_textAlign graph st t1 t2 w1 w2 r :
  textarea (this w1) = Some t1 → textarea (this w2) = Some t2 →
  style_textAlign t1 = style_textAlign t2 →
  getEditorBounds graph st w1 = Ok r w1 → getEditorBounds graph st w2 = Ok r w2.
Proof.
  intros H1 H2 Ha.
  cbv beta delta [getEditorBounds getMinimumSize the_textarea mbind M_bind mret M_ret].
  repeat first [rewrite Ha | rewrite H1 | rewrite H2 | progress cbv beta iota
               | name_let].
  by intros [= <-].
Qed.

Lemma wp_lazy_init_layout w :
  Inv w → intact w →
  wp (match textarea (this w) with None => init | Some _ => mret tt end)
     (λ _ w1, Inv w1 ∧ is_Some (textarea (this w1)) ∧ measures w1 = measures w)
     (λ _, False) w.
Proof.
  intros [H1 H2 H3 H4 H5 H6] Hi. unfold intact, measures, display_of in *.
  split_world w. unfold wp. unfold_M. cbn.
  repeat step_M; (split; [solve_Inv|]); eauto.
Qed.

Lemma wp_stopEditing_layout b w :
  Inv w → is_Some (textarea (this w)) → measures w = b →
  wp (stopEditing true) (λ _ w2, Idle w2 ∧ measures w2 = b) (λ _, False) w.
Proof.
  intros HI [t Ht] Hb. unfold wp.
  destruct (editingCell (this w)) as [c|] eqn:Hc.
  - rewrite (stopEditing_active _ c t) by done.
    split; [by apply Idle_stopped|].
    rewrite <- Hb. revert Ht. clear. unfold measures, display_of.
    split_world w. intros ->. by destruct textNode0.
  - rewrite stopEditing_idle by done. split; [|done].
    apply Inv_Idle; eauto.
Qed.

Lemma getEditorBounds_seal graph st w r t :
  getEditorBounds graph st w = Ok r w → textarea (this w) = Some t →
  bounds_for graph st (style_textAlign t) r.
Proof.
  intros Hr Ht w2 t2 Ht2 Ha. by apply (getEditorBounds_textAlign graph st t t2 w).
Qed.

(** Symbolic execution that keeps what [getEditorBounds] returned. *)
Ltac step_keep :=
  case_inner;
  try match goal with
      | H : getEditorBounds _ _ _ = Ok _ _ |- _ =>
          destruct (getEditorBounds_Ok _ _ _ _ _ H) as [-> _];
          eapply getEditorBounds_seal in H; [|reflexivity]
      | H : getEditorBounds _ _ _ = TypeError _ |- _ =>
          apply getEditorBounds_TypeError in H as [-> ?]
      end;
  cbn in *; simplify_eq.

Lemma wp_startEditing_layout graph c evt st w :
  Inv w → intact w → getState graph c = Some st →
  wp (startEditing graph c evt)
     (λ _ w', laid_out graph st (measures w) w')
     (λ _, False) w.
Proof.
  intros HI Hi Hst. unfold startEditing. apply wp_get.
  eapply wp_seq; [by apply wp_lazy_init_layout|].
  intros _ w1 (HI1 & Ht1 & <-). cbn beta.
  eapply wp_seq; [by apply wp_stopEditing_layout|].
  clear -Hst. intros _ w2 ([H1 H2 H3 H4 H5] & <-).
  unfold laid_out, measures, display_of, resized_bounds.
  split_world w2. simplify_eq. unfold wp. unfold_M. cbn. rewrite Hst.
  repeat step_keep.
  all: try by destruct H3.
  all: (split; [by eexists|]); (split; [done|]); eauto.
Qed.

(** X27. [startEditing] on a rendered cell gives the textarea the
    alignment of the style ("left" when it has none).  When the
    textarea is displayed and [autoSize] is on, it makes the measuring
    [div], with that alignment, and leaves the bounds [resize] gives:
    the cell's rectangle moved by the label position, with no spacing,
    or the label offset for an edge.  Otherwise it makes no [div], and
    the bounds are what [getEditorBounds] returns. *)
Theorem startEditing_lays_out
    (graph : mxGraph) (c : Cell) (evt : option Trigger) (st : mxCellState)
    (w : World) :
  reachable w → intact w → getState graph c = Some st →
  let align := getValue (style st) STYLE_ALIGN ALIGN_LEFT in
  ∃ w' t',
    startEditing graph c evt w = Ok tt w' ∧
    textarea (this w') = Some t' ∧ style_textAlign t' = align ∧
    if measures w
    then textDiv (this w') = Some {| div_textAlign := align |} ∧
         bounds (this w') = Some (resized_bounds graph st)
    else textDiv (this w') = None ∧
         ∃ r, getEditorBounds graph st w' = Ok r w' ∧ bounds (this w') = Some r.
Proof.
  intros HI%reachable_Inv Hi Hst align.
  pose proof (wp_startEditing_layout graph c evt st w HI Hi Hst) as Hwp.
  unfold wp in Hwp. destruct (startEditing graph c evt w) as [[] w'|]; [|done].
  destruct Hwp as [(t' & Ht' & Ha) Hlay].
  exists w', t'. split; [done|]. split; [done|]. split; [done|].
  destruct (measures w); [done|].
  destruct Hlay as (Hd & r & Hb & Hr). split; [done|].
  exists r. split; [|done]. by apply (Hr w' t').
Qed.

Lemma startEditing_lays_out_witness :
  reachable new_World ∧ intact new_World ∧
  getState demo_graph 1%nat = Some state_1 ∧ measures new_World = true ∧
  ∃ w', startEditing demo_graph 1%nat None new_World = Ok tt w' ∧
        textDiv (this w') = Some {| div_textAlign := "left" |} ∧
        bounds (this w') = Some (resized_bounds demo_graph state_1).
Proof.
  assert (reachable new_World) as Hr by (by exists []).
  assert (intact new_World) as Hi by (intros [? Hc]; discriminate Hc).
  split; [exact Hr|]. split; [exact Hi|]. split; [reflexivity|].
  split; [reflexivity|].
  destruct (startEditing_lays_out demo_graph 1%nat None state_1 new_World
              Hr Hi eq_refl) as (w' & t' & Hs & _ & _ & Hd & Hb).
  exists w'. split; [exact Hs|]. split; [exact Hd|exact Hb].
Defined.

(** *** The placeholder as a label *)

Lemma exec_Change graph t w :
  textarea (this w) = Some t →
  exec graph Change w =
    {| this := set_modified true (this w);
       labelChanged := labelChanged w; hidden := hidden w;
       modelListeners := modelListeners w |}.
Proof.
  intros Ht. split_world w. simplify_eq. by unfold exec; unfold_M; cbn.
Qed.

(** X28. The placeholder of an empty label can become the label:
    when a session that shows it is marked as modified with no
    keystroke (the [change] event, or [setModified(true)]),
    [stopEditing(false)] calls [labelChanged] with the placeholder
    text. *)
Theorem placeholder_can_be_committed
    (graph : mxGraph) (c : Cell) (evt : option Trigger) (st : mxCellState)
    (w : World) :
  reachable w → intact w →
  getState graph c = Some st → label_is_empty graph st evt = true →
  labelChanged (run (change_and_commit graph c evt) w) =
    labelChanged w ++ [(c, remove_cr (emptyLabelText (this w)), evt)].
Proof.
  intros Hr Hi Hst Hempty. apply reachable_Inv in Hr as HI.
  destruct (startEditing_returns graph c evt w HI Hi)
    as (w1 & Hs & HI1 & Hout & HL & _).
  unfold start_outcome in Hout. rewrite Hst in Hout.
  destruct Hout as [Hc1 Htr1 _ (t1 & Ht1 & _ & Hv1) _ _ _ _].
  assert (value t1 = emptyLabelText (this w)) as Hv.
  { rewrite Hv1. unfold initial_text, label_is_empty in *.
    by repeat case_match. }
  pose proof (exec_Change graph t1 w1 Ht1) as Hch.
  set (w2 := {| this := _ |}) in Hch.
  assert (Inv w2) as HI2 by (rewrite <- Hch; by apply call_Inv).
  assert (editingCell (this w2) = Some c) as Hc2
    by (revert Hc1; clear; by split_world w1).
  assert (textarea (this w2) = Some t1) as Ht2
    by (revert Ht1; clear; by split_world w1).
  unfold change_and_commit. cbn [run]. unfold exec at 3. cbn [call].
  rewrite Hs. cbn [world_of]. rewrite Hch. unfold exec. cbn [call].
  rewrite (stopEditing_active false c t1 w2 HI2 Hc2 Ht2). cbn [world_of].
  unfold stopped, w2; cbn. rewrite <- HL, <- Htr1, <- Hv. clear.
  by split_world w1.
Qed.

Lemma placeholder_can_be_committed_witness :
  reachable w_placeholder ∧ intact w_placeholder ∧
  getState demo_graph 2%nat = Some state_2 ∧
  label_is_empty demo_graph state_2 None = true ∧
  labelChanged (run (change_and_commit demo_graph 2%nat None) w_placeholder) =
    [(2%nat, "[Type Here]", None)].
Proof.
  assert (reachable w_placeholder) as Hr by (by eexists).
  assert (intact w_placeholder) as Hi by (intros [? Hc]; discriminate Hc).
  split; [exact Hr|]. split; [exact Hi|].
  split; [reflexivity|]. split; [reflexivity|].
  exact (placeholder_can_be_committed demo_graph 2%nat None state_2 w_placeholder
           Hr Hi eq_refl eq_refl).
Defined.

End CellEditorProofs.
